(** * The Magento JWT authorizer for API Gateway

    A shallow embedding of the Lambda authorizer: the secret resolver with its
    process-wide cache ([src/services/secretsManager.ts]), the token validator
    ([src/services/tokenValidator.ts]), the policy generator
    ([src/utils/policyGenerator.ts]) and the handler ([src/index.ts]).

    JavaScript values are modelled at run time, not at their TypeScript types:
    the decoded payload is cast with [as JwtPayload], which checks nothing, so a
    claim such as [sub] or an element of [roles] may be any JSON value. *)

From Stdlib Require Import ZArith Ascii DecimalString.
From stdpp Require Import gmap strings list.

Local Open Scope string_scope.

(** ** JavaScript values and completions *)

(** A value produced by [JSON.parse], and [undefined] for a missing property.
    A number comes in one of two forms. [JNum n] is the safe integer [n], of
    magnitude at most 2^53 - 1, as the integer timestamps of the token format
    are: JavaScript prints it with the decimal digits of [n]. Every other
    number (a fraction, or a number of magnitude 2^53 or more) is
    [JNumText text], given by the text JavaScript prints for it, such as
    "1.5" or "1e+21"; it is neither zero nor [NaN], which [JSON.parse] never
    gives. An object is the list of its own properties. *)
#[warnings="-register-all"]
Inductive jsval : Type :=
  | JUndefined
  | JNull
  | JBool (b : bool)
  | JNum (n : Z)
  | JStr (s : string)
  | JArr (elems : list jsval)
  | JObj (props : list (string * jsval))
  | JNumText (text : string).

(** The exceptions that occur. [TokenExpiredError] and [NotBeforeError] are
    subclasses of [JsonWebTokenError] in jsonwebtoken; the others are not. *)
Inductive js_error : Type :=
  | TokenExpiredError (message : string)
  | NotBeforeError (message : string)
  | JsonWebTokenError (message : string)
  | TypeError (message : string)
  | Error (message : string)
  | ServiceException (name message : string).

Definition instanceof_TokenExpiredError (e : js_error) : bool :=
  match e with TokenExpiredError _ => true | _ => false end.

Definition instanceof_NotBeforeError (e : js_error) : bool :=
  match e with NotBeforeError _ => true | _ => false end.

Definition instanceof_JsonWebTokenError (e : js_error) : bool :=
  match e with
  | TokenExpiredError _ | NotBeforeError _ | JsonWebTokenError _ => true
  | _ => false
  end.

Definition error_message (e : js_error) : string :=
  match e with
  | TokenExpiredError m | NotBeforeError m | JsonWebTokenError m
  | TypeError m | Error m | ServiceException _ m => m
  end.

(** The outcome of evaluating an expression: a value, or a thrown exception. *)
Inductive completion (A : Type) : Type :=
  | Return (a : A)
  | Throw (e : js_error).
Arguments Return {A} a.
Arguments Throw {A} e.

#[global] Instance completion_bind : MBind completion :=
  fun A B (k : A -> completion B) (c : completion A) =>
    match c with
    | Return a => k a
    | Throw e => Throw e
    end.

(** [ToBoolean]: what [!v] and [v && ...] test. *)
Definition truthy (v : jsval) : bool :=
  match v with
  | JUndefined | JNull => false
  | JBool b => b
  | JNum n => negb (Z.eqb n 0)
  | JStr s => negb (String.eqb s "")
  | JArr _ | JObj _ => true
  | JNumText _ => true
  end.

(** The truthiness of a [string | undefined] parameter. *)
Definition truthy_str (o : option string) : bool :=
  match o with
  | Some s => negb (String.eqb s "")
  | None => false
  end.

(** [o.k] on an object made by [JSON.parse]: the own property, else
    [undefined] (none of the names read here is on [Object.prototype]). *)
Fixpoint get_prop (props : list (string * jsval)) (k : string) : jsval :=
  match props with
  | [] => JUndefined
  | (k', v) :: rest => if String.eqb k' k then v else get_prop rest k
  end.

Fixpoint has_own (props : list (string * jsval)) (k : string) : bool :=
  match props with
  | [] => false
  | (k', _) :: rest => String.eqb k' k || has_own rest k
  end.

(** The text of a safe integer: its decimal digits, with the sign of a
    negative one. *)
Definition Number_toString (n : Z) : string :=
  NilZero.string_of_int (Z.to_int n).

(** [ToString], as [Array.prototype.join] applies it to each element.
    An array converts through its own [join]; a plain object converts to
    "[object Object]" through [Object.prototype.toString], unless it has an own
    property [toString], which shadows that method with a JSON value that is
    not callable: [valueOf] then gives the object back, and the conversion
    throws a [TypeError]. [join] turns [undefined] and [null] into the empty
    string. *)
Fixpoint ToString (v : jsval) : completion string :=
  match v with
  | JUndefined => Return "undefined"
  | JNull => Return "null"
  | JBool true => Return "true"
  | JBool false => Return "false"
  | JNum n => Return (Number_toString n)
  | JStr s => Return s
  | JArr elems =>
      (fix join (l : list jsval) : completion string :=
         match l with
         | [] => Return ""
         | x :: rest =>
             a ← match x with
                 | JUndefined | JNull => Return ""
                 | _ => ToString x
                 end;
             match rest with
             | [] => Return a
             | _ :: _ => b ← join rest; Return (a +:+ "," +:+ b)
             end
         end) elems
  | JObj props =>
      if has_own props "toString"
      then Throw (TypeError "Cannot convert object to primitive value")
      else Return "[object Object]"
  | JNumText text => Return text
  end.

(** [a.join(',')] *)
Definition Array_join (a : list jsval) : completion string :=
  ToString (JArr a).

(** ** Strings and the [Bearer] pattern *)

(** A header value is a string of code units below 256, one [ascii] each, as
    the octets of an HTTP field value. The classes below are those of
    ECMAScript, cut down to these code units. *)
Definition code (c : ascii) : N := N_of_ascii c.

(** The class [\s]: tab, line feed, vertical tab, form feed, carriage return,
    space and no-break space. *)
Definition is_white_space (c : ascii) : bool :=
  let n := code c in
  ((9 <=? n) && (n <=? 13) || (n =? 32) || (n =? 160))%N.

(** [.] matches every code unit but the line terminators. *)
Definition is_line_terminator (c : ascii) : bool :=
  let n := code c in ((n =? 10) || (n =? 13))%N.

(** Case folding under the [i] flag: the upper-case form of the code unit. *)
Definition canonicalize (c : ascii) : N :=
  let n := code c in
  (if (97 <=? n) && (n <=? 122) then n - 32
   else if (n =? 181) then 924
   else if (n =? 255) then 376
   else if (224 <=? n) && (n <=? 254) && negb (n =? 247) then n - 32
   else n)%N.

Definition eq_ignore_case (c p : ascii) : bool :=
  (canonicalize c =? canonicalize p)%N.

(** The literal part of the pattern: consumes [pat] from the front of [s],
    ignoring case, and gives the rest of [s]. *)
Fixpoint match_literal (pat s : string) : option string :=
  match pat, s with
  | EmptyString, _ => Some s
  | String p pat', String c s' =>
      if eq_ignore_case c p then match_literal pat' s' else None
  | String _ _, EmptyString => None
  end.

(** The group [.*] before [$]: without the flag [m], [$] is the end of the
    input, so the group matches when no line terminator is left, and holds
    all of it. *)
Fixpoint match_dot_star_end (s : string) : option string :=
  match s with
  | EmptyString => Some EmptyString
  | String c s' =>
      if is_line_terminator c then None
      else String c <$> match_dot_star_end s'
  end.

(** [\s*] and the group, greedy with backtracking: take one more white space
    if the rest then matches, else let the group start here. *)
Fixpoint match_spaces_group (s : string) : option string :=
  match s with
  | String c s' =>
      if is_white_space c then
        match match_spaces_group s' with
        | Some g => Some g
        | None => match_dot_star_end s
        end
      else match_dot_star_end s
  | EmptyString => match_dot_star_end s
  end.

(** [s.match(re)] for the pattern [^Bearer\s+], a group [.*] and [$],
    with flag [i]: the array of the whole match and group 1,
    or [null]. *)
Definition match_Bearer (s : string) : option (list string) :=
  match match_literal "Bearer" s with
  | Some (String c s') =>
      if is_white_space c then
        g ← match_spaces_group s'; Some [s; g]
      else None
  | _ => None
  end.

(** [extractToken] of [src/index.ts]. *)
Definition extractToken (authorizationHeader : option string) : option string :=
  match authorizationHeader with
  | None => None
  | Some h =>
      if negb (truthy_str authorizationHeader) then None
      else
        match match_Bearer h with
        | None => None
        | Some m => if (length m <? 2)%nat then None else m !! 1%nat
        end
  end.

Fixpoint string_forall (P : ascii -> bool) (s : string) : bool :=
  match s with
  | EmptyString => true
  | String c s' => P c && string_forall P s'
  end.

Definition same_ignoring_case (a b : string) : Prop :=
  canonicalize <$> String.list_ascii_of_string a
  = canonicalize <$> String.list_ascii_of_string b.

(** The pattern in words: the keyword in any case, at least one white space,
    then a token free of line terminators. *)
Definition Bearer_pattern (h : string) : Prop :=
  exists kw ws tok : string,
    h = kw +:+ ws +:+ tok /\
    same_ignoring_case kw "Bearer" /\
    ws <> EmptyString /\
    string_forall is_white_space ws = true /\
    string_forall (fun c => negb (is_line_terminator c)) tok = true.

(** ** The access decision ([src/utils/policyGenerator.ts]) *)

Inductive effect : Type := Allow | Deny.

Record PolicyStatement : Type := {
  Action : string;
  Effect : effect;
  Resource : string;
}.

Record PolicyDocument : Type := {
  Version : string;
  Statement : list PolicyStatement;
}.

(** The object given back to API Gateway. [context] is [None] both when the
    property is missing and when it holds [undefined]. *)
Record APIGatewayAuthorizerResult : Type := {
  principalId : jsval;
  policyDocument : PolicyDocument;
  context : option (list (string * jsval));
}.

Definition generatePolicy (principalId : jsval) (effect : effect)
    (resource : string) (context : option (list (string * jsval)))
  : APIGatewayAuthorizerResult :=
  let policyDocument :=
    {| Version := "2012-10-17";
       Statement := [ {| Action := "execute-api:Invoke";
                         Effect := effect;
                         Resource := resource |} ] |} in
  {| principalId := principalId;
     policyDocument := policyDocument;
     context := context |}.

(** [x.join(',')] for a value [x] that may be missing: only an array has the
    method. *)
Definition call_join (x : option jsval) : completion string :=
  match x with
  | Some (JArr a) => Array_join a
  | _ => Throw (TypeError "join is not a function")
  end.

(** [isoNow] is the text of [new Date().toISOString()]. The properties of the
    context are evaluated in the order written, so [roles] is joined first. *)
Definition generateAllowPolicy (userId : jsval) (resource : string)
    (roles scopes : option jsval) (isoNow : string)
  : completion APIGatewayAuthorizerResult :=
  roles_text ← call_join roles;
  scopes_text ← call_join scopes;
  Return (generatePolicy userId Allow resource
            (Some [ ("userId", userId);
                    ("roles", JStr roles_text);
                    ("scopes", JStr scopes_text);
                    ("userIdHeader", userId);
                    ("authenticated", JStr "true");
                    ("timestamp", JStr isoNow) ])).

(** The parameter [userId] defaults to ['anonymous'] when it is not given. *)
Definition generateDenyPolicy (userId : option jsval) (resource : string)
  : APIGatewayAuthorizerResult :=
  generatePolicy (default (JStr "anonymous") userId) Deny resource None.

(** [config.authorizer.denyAllPolicy] of [src/config/index.ts]. *)
Definition denyAllPolicy : PolicyDocument :=
  {| Version := "2012-10-17";
     Statement := [ {| Action := "execute-api:Invoke";
                       Effect := Deny;
                       Resource := "*" |} ] |}.

Definition getDenyAllPolicy : APIGatewayAuthorizerResult :=
  {| principalId := JStr "anonymous";
     policyDocument := denyAllPolicy;
     context := None |}.

(** ** Configuration, the secret store and the cache *)

(** The part of [config] read from the environment. [cacheExpiryMs] is the
    integer [parseInt] gives (a setting that is not a number, under which no
    entry is ever fresh, is left out); time stamps are [Date.now()] in
    milliseconds. *)
Record Config : Type := {
  jwt_secretName : string;
  jwt_issuer : string;
  jwt_audience : string;
  jwt_algorithm : string;
  jwt_localSecret : option string;
  cacheExpiryMs : Z;
}.

Record VerifyOptions : Type := {
  algorithms : list string;
  issuer : string;
  audience : string;
}.

(** What [client.getSecretValue] resolves to, or the exception of the SDK. *)
Inductive store_reply : Type :=
  | StoreResponse (SecretString : option string)
  | StoreFailure (name message : string).

Record cache_entry : Type := {
  value : string;
  timestamp : Z;
}.

(** The state shared by the invocations of one process: the module-level
    [secretsCache], an object used as a map from secret names to entries, and
    the log of the calls made to the store, kept to count them. *)
Record world : Type := {
  secretsCache : gmap string cache_entry;
  storeCalls : list string;
}.

Definition initial_world : world :=
  {| secretsCache := ∅; storeCalls := [] |}.

(** The clock readings of one invocation: [Date.now()] in [getSecret], the clock
    jsonwebtoken reads in [verify], and [new Date().toISOString()]. *)
Record instants : Type := {
  dateNow : Z;
  verifyClock : Z;
  isoNow : string;
}.

(** A field is [None] when the object has no such property. *)
Record TokenValidationResult : Type := {
  isValid : bool;
  userId : option jsval;
  roles : option jsval;
  scopes : option jsval;
  error : option string;
}.

Definition Invalid (reason : string) : TokenValidationResult :=
  {| isValid := false; userId := None; roles := None; scopes := None;
     error := Some reason |}.

Definition Valid (sub roles scopes : jsval)
  : TokenValidationResult :=
  {| isValid := true; userId := Some sub; roles := Some roles;
     scopes := Some scopes; error := None |}.

Record APIGatewayTokenAuthorizerEvent : Type := {
  type : string;
  methodArn : string;
  authorizationToken : option string;
}.

(** [try { body } catch (error) { handler }] *)
Definition try_catch {A : Type} (body : completion A)
    (handler : js_error -> completion A) : completion A :=
  match body with
  | Return a => Return a
  | Throw e => handler e
  end.

(** [v !== s] for [s] of type [string | undefined] *)
Definition strict_ne (v : jsval) (s : option string) : bool :=
  match s, v with
  | Some s, JStr s' => negb (String.eqb s' s)
  | None, JUndefined => false
  | _, _ => true
  end.

Definition Array_isArray (v : jsval) : bool :=
  match v with
  | JArr _ => true
  | _ => false
  end.

(** [v.length], for a value that is not [undefined] or [null] *)
Definition length_of (v : jsval) : jsval :=
  match v with
  | JArr elems => JNum (Z.of_nat (length elems))
  | JStr s => JNum (Z.of_nat (String.length s))
  | _ => JUndefined
  end.

(** [v === n] for a number [n] *)
Definition strict_eq_num (v : jsval) (n : Z) : bool :=
  match v with
  | JNum m => Z.eqb m n
  | _ => false
  end.

(** ** Shapes of a decision *)

Definition is_string (v : jsval) : bool :=
  match v with
  | JStr _ => true
  | _ => false
  end.

(** A decision API Gateway can read: one statement on the action
    [execute-api:Invoke], in a document of the version IAM knows. *)
Definition well_formed (d : APIGatewayAuthorizerResult) : Prop :=
  exists (e : effect) (resource : string),
    policyDocument d =
    {| Version := "2012-10-17";
       Statement := [ {| Action := "execute-api:Invoke";
                         Effect := e;
                         Resource := resource |} ] |}.

(** The shape written with the action named ["invoke"]. *)
Definition invoke_shape (d : APIGatewayAuthorizerResult) : Prop :=
  exists (e : effect) (resource : string),
    policyDocument d =
    {| Version := "2012-10-17";
       Statement := [ {| Action := "invoke";
                         Effect := e;
                         Resource := resource |} ] |}.

(** A context all of whose values are strings. *)
Definition string_context (d : APIGatewayAuthorizerResult) : Prop :=
  forall ctx, context d = Some ctx ->
    Forall (fun kv => is_string kv.2 = true) ctx.

(** The effect of the first statement of a decision. *)
Definition effect_of (d : APIGatewayAuthorizerResult) : option effect :=
  Effect <$> head (Statement (policyDocument d)).

(** The context goes with [Allow] only, and each of its values is a string,
    or the principal as the token gave it. *)
Definition context_on_allow (d : APIGatewayAuthorizerResult) : Prop :=
  (is_Some (context d) <-> effect_of d = Some Allow) /\
  forall ctx, context d = Some ctx ->
    Forall (fun kv => is_string kv.2 = true \/ kv.2 = principalId d) ctx.

(** Whether a string begins with a white space. *)
Definition starts_with_space (s : string) : bool :=
  match s with
  | String c _ => is_white_space c
  | EmptyString => false
  end.

(** A value that [ToString] converts: no object met on the way through the
    arrays has an own property [toString]. *)
Fixpoint convertible (v : jsval) : bool :=
  match v with
  | JArr elems =>
      (fix all (l : list jsval) : bool :=
         match l with
         | [] => true
         | x :: rest => convertible x && all rest
         end) elems
  | JObj props => negb (has_own props "toString")
  | _ => true
  end.

(** A value whose numbers are what the model takes them for: every [JNum]
    met on the way through the arrays is a safe integer. Each value of
    [JSON.parse] has a form with this property, a number that is no safe
    integer being a [JNumText]; so the condition rules out no token, only
    forms that stand for no value. *)
Fixpoint safe_numbers (v : jsval) : bool :=
  match v with
  | JNum n => (Z.abs n <=? 9007199254740991)%Z
  | JArr elems =>
      (fix all (l : list jsval) : bool :=
         match l with
         | [] => true
         | x :: rest => safe_numbers x && all rest
         end) elems
  | _ => true
  end.

(** The reasons [validateToken] gives, but for the one that quotes the
    message of jsonwebtoken. *)
Definition fixed_reasons : list string :=
  [ "Missing subject (user ID) in token";
    "Missing or invalid roles in token";
    "Missing or invalid scopes in token";
    "IP address mismatch";
    "Token expired";
    "Token not yet valid";
    "Error validating token" ].

Definition comma_free (s : string) : bool :=
  string_forall (fun c => negb (Ascii.eqb c ",")) s.

(** ** The configuration read from the environment ([src/config/index.ts]) *)

(** [process.env], after dotenv has filled it in outside production. *)
Definition environment : Type := string -> option string.

(** [v || d], for [v] of type [string | undefined]. *)
Definition or_default (v : option string) (d : string) : string :=
  if truthy_str v then default d v else d.

Definition is_digit (c : ascii) : bool :=
  let n := code c in ((48 <=? n) && (n <=? 57))%N.

Definition starts_with_digit (s : string) : bool :=
  match s with
  | String c _ => is_digit c
  | EmptyString => false
  end.

(** The white space [parseInt] skips at the front. *)
Fixpoint trim_start (s : string) : string :=
  match s with
  | String c s' => if is_white_space c then trim_start s' else s
  | EmptyString => EmptyString
  end.

(** The value of the longest prefix of decimal digits, [None] when there is
    no digit; [acc] is the value read so far. *)
Fixpoint leading_digits (s : string) (acc : option Z) : option Z :=
  match s with
  | String c s' =>
      if is_digit c
      then leading_digits s'
             (Some (10 * default 0%Z acc + Z.of_N (code c - 48)))%Z
      else acc
  | EmptyString => acc
  end.

(** [parseInt(s, 10)]: white space, a sign, digits; what follows the digits
    is ignored. [None] is [NaN]. The value is exact, as that of JavaScript is
    up to 2^53. *)
Definition parseInt (s : string) : option Z :=
  match trim_start s with
  | String "-" rest => Z.opp <$> leading_digits rest None
  | String "+" rest => leading_digits rest None
  | rest => leading_digits rest None
  end.

(** The whole of [config] as the module builds it from the environment, but
    for [authorizer.denyAllPolicy], which is [denyAllPolicy] whatever the
    environment. A number is [None] when [parseInt] gives [NaN]. *)
Record LoadedConfig : Type := {
  loaded_jwt_secretName : string;
  loaded_jwt_issuer : string;
  loaded_jwt_audience : string;
  loaded_jwt_expiresIn : option Z;
  loaded_jwt_algorithm : string;
  loaded_jwt_localSecret : option string;
  loaded_aws_region : string;
  loaded_cacheExpiryMs : option Z;
  loaded_authorizer_cacheTtl : option Z;
}.

Definition load_config (env : environment) : LoadedConfig :=
  {| loaded_jwt_secretName :=
       or_default (env "JWT_SECRET_NAME") "magento/jwt/secret";
     loaded_jwt_issuer := or_default (env "JWT_ISSUER") "magento";
     loaded_jwt_audience := or_default (env "JWT_AUDIENCE") "api-gateway";
     loaded_jwt_expiresIn :=
       parseInt (or_default (env "JWT_EXPIRES_IN") "3600");
     loaded_jwt_algorithm := or_default (env "JWT_ALGORITHM") "HS256";
     loaded_jwt_localSecret := env "LOCAL_JWT_SECRET";
     loaded_aws_region := or_default (env "AWS_REGION") "us-east-1";
     loaded_cacheExpiryMs :=
       parseInt (or_default (env "SECRETS_CACHE_EXPIRY_MS") "300000");
     loaded_authorizer_cacheTtl :=
       parseInt (or_default (env "AUTHORIZER_CACHE_TTL") "300") |}.

(** The fields of [config] the authorizer reads, as a [Config]. The expiry of
    a [Config] is an integer, so there is one only when [cacheExpiryMs] is
    not [NaN]; [load_config] has the configuration in every case. *)
Definition config_of_env (env : environment) : option Config :=
  let loaded := load_config env in
  expiry ← loaded_cacheExpiryMs loaded;
  Some {| jwt_secretName := loaded_jwt_secretName loaded;
          jwt_issuer := loaded_jwt_issuer loaded;
          jwt_audience := loaded_jwt_audience loaded;
          jwt_algorithm := loaded_jwt_algorithm loaded;
          jwt_localSecret := loaded_jwt_localSecret loaded;
          cacheExpiryMs := expiry |}.

(** The event of the local test at the end of [src/index.ts]. *)
Definition mockEvent : APIGatewayTokenAuthorizerEvent :=
  {| type := "TOKEN";
     methodArn :=
       "arn:aws:execute-api:us-east-1:123456789012:abcdef123/test/GET/resource";
     authorizationToken :=
       Some "Bearer eyJhbGciOiJIUzI1NiIsInR5cCI6IkpXVCJ9..." |}.

(** ** A concrete process *)

(** The defaults of [src/config/index.ts], as under an empty environment. *)
Definition default_config : Config :=
  {| jwt_secretName := "magento/jwt/secret";
     jwt_issuer := "magento";
     jwt_audience := "api-gateway";
     jwt_algorithm := "HS256";
     jwt_localSecret := None;
     cacheExpiryMs := 300000 |}.

(** A store that holds the JWT secret and nothing else. *)
Definition sample_store (n : nat) (SecretId : string) : store_reply :=
  if String.eqb SecretId "magento/jwt/secret"
  then StoreResponse (Some "s3cret")
  else StoreFailure "ResourceNotFoundException"
         "Secrets Manager can't find the specified secret.".

(** A store that is down. *)
Definition failing_store (n : nat) (SecretId : string) : store_reply :=
  StoreFailure "InternalServiceError" "An error occurred on the server side.".

Definition sample_claims (sub : jsval) (roles : list jsval)
  : list (string * jsval) :=
  [ ("sub", sub);
    ("roles", JArr roles);
    ("scopes", JArr [JStr "read"; JStr "write"]);
    ("iat", JNum 1700000000);
    ("exp", JNum 1700003600);
    ("iss", JStr "magento");
    ("aud", JStr "api-gateway") ].

(** The tokens of the sample issuer, named by what their payload holds. *)
Definition sample_tokens (token : string) : option (list (string * jsval)) :=
  if String.eqb token "alice" then
    Some (sample_claims (JStr "alice") [JStr "admin"; JStr "editor"])
  else if String.eqb token "bound" then
    Some (("ip", JStr "1.2.3.4")
          :: sample_claims (JStr "bob") [JStr "customer"])
  else if String.eqb token "numeric" then
    Some (sample_claims (JStr "carol") [JNum 42])
  else if String.eqb token "shadowed" then
    Some (sample_claims (JStr "dave") [JObj [("toString", JNum 1)]])
  else if String.eqb token "erin" then
    Some (sample_claims (JNum 1001) [JStr "customer"])
  else if String.eqb token "fraction" then
    Some (sample_claims (JStr "frank")
            [JNumText "1.5"; JNumText "1e+21";
             JObj [("name", JObj [("toString", JNum 1)])]])
  else None.

(** A stand-in for [jwt.verify]: signature, then expiry, over the sample
    tokens; the clock is in milliseconds, [exp] in seconds. *)
Definition sample_verify (token secret : string) (options : VerifyOptions)
    (clock : Z) : completion (list (string * jsval)) :=
  if negb (String.eqb secret "s3cret") then
    Throw (JsonWebTokenError "invalid signature")
  else
    match sample_tokens token with
    | None => Throw (JsonWebTokenError "jwt malformed")
    | Some claims =>
        match get_prop claims "exp" with
        | JNum exp =>
            if (exp <=? clock / 1000)%Z
            then Throw (TokenExpiredError "jwt expired")
            else Return claims
        | _ => Return claims
        end
    end.

Definition sample_event (header : option string)
  : APIGatewayTokenAuthorizerEvent :=
  {| type := "TOKEN";
     methodArn :=
       "arn:aws:execute-api:us-east-1:123456789012:abcdef123/test/GET/resource";
     authorizationToken := header |}.

Definition sample_instants : instants :=
  {| dateNow := 1700000100000;
     verifyClock := 1700000100000;
     isoNow := "2023-11-14T22:15:00.000Z" |}.

(** The world after the JWT secret has been fetched once, at [now]. *)
Definition world_after_fetch (now : Z) : world :=
  {| secretsCache :=
       <["magento/jwt/secret" := {| value := "s3cret"; timestamp := now |}]> ∅;
     storeCalls := ["magento/jwt/secret"] |}.

(** The defaults with a local secret, as in local development. *)
Definition local_config : Config :=
  {| jwt_secretName := "magento/jwt/secret";
     jwt_issuer := "magento";
     jwt_audience := "api-gateway";
     jwt_algorithm := "HS256";
     jwt_localSecret := Some "s3cret";
     cacheExpiryMs := 300000 |}.

(** An environment with a short cache expiry, an empty issuer and an audience
    of its own. *)
Definition sample_env : environment :=
  fun k =>
    if String.eqb k "SECRETS_CACHE_EXPIRY_MS" then Some "5"
    else if String.eqb k "JWT_ISSUER" then Some ""
    else if String.eqb k "JWT_AUDIENCE" then Some "shop"
    else None.

(** The same with the expiry written with a unit. *)
Definition sample_env_with_unit : environment :=
  fun k =>
    if String.eqb k "SECRETS_CACHE_EXPIRY_MS" then Some "5min"
    else sample_env k.

(** ** The services *)

Section Authorizer.

(** The environment of the process: its configuration and [NODE_ENV]. *)
Variable config : Config.
Variable NODE_ENV : option string.

(** The secret store: the reply to the call number [n] (from 0) of the
    process, asked for [SecretId]. *)
Variable getSecretValue : nat -> string -> store_reply.

(** [jwt.verify(token, secret, options)] of jsonwebtoken, read at a given
    clock: the decoded payload, or the exception thrown. With [issuer] and
    [audience] set, as they are here, a payload that is accepted is an
    object, given by its properties. *)
Variable jwt_verify :
  string -> string -> VerifyOptions -> Z -> completion (list (string * jsval)).

Record SecretsManagerService : Type := {
  useLocalSecrets : bool;
}.

Definition new_SecretsManagerService : SecretsManagerService :=
  {| useLocalSecrets :=
       negb (bool_decide (NODE_ENV = Some "production"))
       && truthy_str (jwt_localSecret config) |}.

(** The store call of [getSecret], with its [catch] that throws the error
    again. The call is logged whatever it gives. *)
Definition fetchSecret (secretName : string) (now : Z) (w : world)
  : completion string * world :=
  let called :=
    {| secretsCache := secretsCache w;
       storeCalls := storeCalls w ++ [secretName] |} in
  match getSecretValue (length (storeCalls w)) secretName with
  | StoreFailure name message => (Throw (ServiceException name message), called)
  | StoreResponse SecretString =>
      if negb (truthy_str SecretString) then
        (Throw (Error ("Secret " +:+ secretName +:+ " not found or has no value")),
         called)
      else
        (Return (default "" SecretString),
         {| secretsCache :=
              <[secretName := {| value := default "" SecretString;
                                 timestamp := now |}]>
                (secretsCache w);
            storeCalls := storeCalls called |})
  end.

(** A reply that carries no secret: an exception of the SDK, or a
    [SecretString] that is missing or empty. *)
Definition no_secret (reply : store_reply) : Prop :=
  match reply with
  | StoreFailure _ _ => True
  | StoreResponse SecretString => truthy_str SecretString = false
  end.

(** The local secret stands in for the store: the first test of
    [getSecret]. *)
Definition local_bypass (this : SecretsManagerService) (secretName : string)
  : bool :=
  useLocalSecrets this
  && String.eqb secretName (jwt_secretName config)
  && truthy_str (jwt_localSecret config).

(** A property of type [string | undefined] is read with [default ""] where
    a test has already shown it to be a string. *)
Definition getSecret (this : SecretsManagerService) (secretName : string)
    (now : Z) (w : world) : completion string * world :=
  if local_bypass this secretName
  then (Return (default "" (jwt_localSecret config)), w)
  else
    let cachedSecret := secretsCache w !! secretName in
    match cachedSecret with
    | Some c =>
        if (now - timestamp c <? cacheExpiryMs config)%Z
        then (Return (value c), w)
        else fetchSecret secretName now w
    | None => fetchSecret secretName now w
    end.

Definition getJwtSecret (this : SecretsManagerService) (now : Z) (w : world)
  : completion string * world :=
  getSecret this (jwt_secretName config) now w.

Record TokenValidatorService : Type := {
  secretsManager : SecretsManagerService;
}.

Definition new_TokenValidatorService : TokenValidatorService :=
  {| secretsManager := new_SecretsManagerService |}.

Definition verify_options : VerifyOptions :=
  {| algorithms := [jwt_algorithm config];
     issuer := jwt_issuer config;
     audience := jwt_audience config |}.

(** The checks made on the decoded payload, in the order of the source. *)
Definition check_claims (decoded : list (string * jsval))
    (sourceIp : option string) : TokenValidationResult :=
  let sub := get_prop decoded "sub" in
  let roles := get_prop decoded "roles" in
  let scopes := get_prop decoded "scopes" in
  let ip := get_prop decoded "ip" in
  if negb (truthy sub) then
    Invalid "Missing subject (user ID) in token"
  else if negb (truthy roles) || negb (Array_isArray roles)
          || strict_eq_num (length_of roles) 0 then
    Invalid "Missing or invalid roles in token"
  else if negb (truthy scopes) || negb (Array_isArray scopes)
          || strict_eq_num (length_of scopes) 0 then
    Invalid "Missing or invalid scopes in token"
  else if truthy ip && truthy_str sourceIp && strict_ne ip sourceIp then
    Invalid "IP address mismatch"
  else Valid sub roles scopes.

(** The [catch] of [validateToken]: the class of the error gives the
    reason. *)
Definition classify_error (error : js_error) : TokenValidationResult :=
  if instanceof_TokenExpiredError error then Invalid "Token expired"
  else if instanceof_NotBeforeError error then Invalid "Token not yet valid"
  else if instanceof_JsonWebTokenError error
  then Invalid ("Invalid token: " +:+ error_message error)
  else Invalid "Error validating token".

Definition validateToken (this : TokenValidatorService) (token : string)
    (sourceIp : option string) (t : instants) (w : world)
  : completion TokenValidationResult * world :=
  let '(got, w') := getJwtSecret (secretsManager this) (dateNow t) w in
  (try_catch
     (secret ← got;
      decoded ← jwt_verify token secret verify_options (verifyClock t);
      Return (check_claims decoded sourceIp))
     (fun error => Return (classify_error error)),
   w').

(** The module-level [tokenValidator] of [src/index.ts]. *)
Definition tokenValidator : TokenValidatorService :=
  new_TokenValidatorService.

(** What [handler] does with the outcome of the validation it awaited. *)
Definition decision_for (event : APIGatewayTokenAuthorizerEvent) (t : instants)
    (validated : completion TokenValidationResult)
  : completion APIGatewayAuthorizerResult :=
  validationResult ← validated;
  if negb (isValid validationResult) then
    Return (generateDenyPolicy (Some (JStr "anonymous")) (methodArn event))
  else
    generateAllowPolicy
      (default JUndefined (userId validationResult))
      (methodArn event)
      (roles validationResult)
      (scopes validationResult)
      (isoNow t).

(** The [try] block of [handler]. *)
Definition handler_try (event : APIGatewayTokenAuthorizerEvent)
    (t : instants) (w : world)
  : completion APIGatewayAuthorizerResult * world :=
  let token := extractToken (authorizationToken event) in
  if negb (truthy_str token) then (Return getDenyAllPolicy, w)
  else
    let sourceIp : option string := None in
    let '(validated, w') :=
      validateToken tokenValidator (default "" token) sourceIp t w in
    (decision_for event t validated, w').

(** [handler] of [src/index.ts]. The event is logged before the [try] block;
    [JSON.stringify] does not throw on an event of strings. *)
Definition handler (event : APIGatewayTokenAuthorizerEvent)
    (t : instants) (w : world)
  : completion APIGatewayAuthorizerResult * world :=
  let '(tried, w') := handler_try event t w in
  (try_catch tried (fun error => Return getDenyAllPolicy), w').

(** The worlds a process goes through: it starts with an empty cache, and
    only [getSecret] of its one service changes the state. *)
Inductive reachable : world -> Prop :=
  | reachable_initial : reachable initial_world
  | reachable_getSecret (w : world) (secretName : string) (now : Z) :
      reachable w ->
      reachable (getSecret new_SecretsManagerService secretName now w).2.

(** The world once the module is loaded: with [NODE_ENV] set to [local] the
    handler is run on [mockEvent]. *)
Definition on_load (t : instants) : world :=
  if bool_decide (NODE_ENV = Some "local")
  then (handler mockEvent t initial_world).2
  else initial_world.

(** ** Conversions and the pattern *)

Lemma Array_join_cons (x : jsval) (rest : list jsval) :
  Array_join (x :: rest) =
  a ← match x with
      | JUndefined | JNull => Return ""
      | _ => ToString x
      end;
  match rest with
  | [] => Return a
  | _ :: _ => b ← Array_join rest; Return (a +:+ "," +:+ b)
  end.
Proof. reflexivity. Qed.

(** Joining strings is [String.concat]: the elements in their order, with a
    comma between two of them. *)
Lemma Array_join_strings (names : list string) :
  Array_join (JStr <$> names) = Return (String.concat "," names).
Proof.
  induction names as [|a [|b names] IH]; [reflexivity | reflexivity |].
  change (JStr <$> a :: b :: names) with (JStr a :: (JStr <$> b :: names)).
  rewrite Array_join_cons, IH. reflexivity.
Qed.

(** Induction on a value, with the hypothesis for the elements of an array. *)
Lemma jsval_nested_ind (P : jsval -> Prop) :
  P JUndefined -> P JNull -> (forall b, P (JBool b)) -> (forall n, P (JNum n)) ->
  (forall s, P (JStr s)) ->
  (forall elems, Forall P elems -> P (JArr elems)) ->
  (forall props, P (JObj props)) ->
  (forall text, P (JNumText text)) ->
  forall v, P v.
Proof.
  intros Hu Hn Hb Hz Hs Ha Ho Ht.
  refine (fix IH (v : jsval) : P v :=
            match v with
            | JUndefined => Hu
            | JNull => Hn
            | JBool b => Hb b
            | JNum n => Hz n
            | JStr s => Hs s
            | JArr elems =>
                Ha elems
                  ((fix all (l : list jsval) : Forall P l :=
                      match l with
                      | [] => Forall_nil_2 P
                      | x :: rest => Forall_cons_2 P x rest (IH x) (all rest)
                      end) elems)
            | JObj props => Ho props
            | JNumText text => Ht text
            end).
Qed.

(** [ToString] returns on the values that are [convertible], and throws the
    [TypeError] of the conversion on the others. *)
Lemma ToString_cases (v : jsval) :
  (convertible v = true /\ exists s, ToString v = Return s)
  \/ (convertible v = false
      /\ ToString v = Throw (TypeError "Cannot convert object to primitive value")).
Proof.
  induction v as [| |b|n|s|elems IH|props|text] using jsval_nested_ind;
    try (left; split; [done|by eexists]).
  - left. split; [done|]. destruct b; by eexists.
  - change (ToString (JArr elems)) with (Array_join elems).
    induction IH as [|x rest Hx _ IHrest]; [left; split; [done|by eexists]|].
    change (convertible (JArr (x :: rest)))
      with (convertible x && convertible (JArr rest)).
    change (ToString (JArr rest)) with (Array_join rest) in IHrest.
    rewrite Array_join_cons.
    destruct (convertible (JArr rest)) eqn:Hr;
      destruct IHrest as [[Hr' [b Hb]] | [Hr' Hb]]; try done;
      rewrite Hb; clear Hb Hr';
      destruct Hx as [[Hc [a Ha]] | [Hc Hthrow]]; rewrite Hc;
      try (right; split; [done|];
           destruct x; try discriminate Hthrow; by rewrite Hthrow);
      (assert (match x with
               | JUndefined | JNull => Return ""
               | _ => ToString x
               end = Return (match x with
                             | JUndefined | JNull => ""
                             | _ => a
                             end)) as -> by (by destruct x)).
    + left. split; [done|]. destruct rest; by eexists.
    + destruct rest as [|y rest]; [done|]. by right.
  - simpl. destruct (has_own props "toString"); [by right|].
    left. split; [done|by eexists].
Qed.

Lemma Array_join_cases (elems : list jsval) :
  (convertible (JArr elems) = true /\ exists s, Array_join elems = Return s)
  \/ (convertible (JArr elems) = false
      /\ Array_join elems
         = Throw (TypeError "Cannot convert object to primitive value")).
Proof. apply (ToString_cases (JArr elems)). Qed.

(** A number that is no safe integer joins with the text JavaScript prints
    for it, and an own [toString] inside a plain object is not looked at. *)
Example Array_join_other_numbers :
  Array_join [JNumText "1.5"; JNumText "1e+21";
              JObj [("name", JObj [("toString", JNum 1)])]]
  = Return "1.5,1e+21,[object Object]".
Proof. reflexivity. Qed.

Lemma match_dot_star_end_Some (s g : string) :
  match_dot_star_end s = Some g ->
  g = s /\ string_forall (fun c => negb (is_line_terminator c)) s = true.
Proof.
  revert g. induction s as [|c s IH]; intros g H; simpl in *.
  - by inversion H.
  - destruct (is_line_terminator c); [done|].
    destruct (match_dot_star_end s) as [g'|]; [|done].
    inversion H; subst. destruct (IH g' eq_refl) as [-> ->]. done.
Qed.

Lemma match_dot_star_end_forall (s : string) :
  string_forall (fun c => negb (is_line_terminator c)) s = true ->
  match_dot_star_end s = Some s.
Proof.
  induction s as [|c s IH]; simpl; [done|].
  intros [Hc Hs]%andb_prop. destruct (is_line_terminator c); [done|].
  by rewrite IH.
Qed.

(** What the greedy group holds: the input without some leading white
    space. *)
Lemma match_spaces_group_Some (s g : string) :
  match_spaces_group s = Some g ->
  exists ws, s = ws +:+ g /\ string_forall is_white_space ws = true /\
    string_forall (fun c => negb (is_line_terminator c)) g = true.
Proof.
  revert g. induction s as [|c s IH]; intros g H.
  - apply match_dot_star_end_Some in H as [-> H]. by exists "".
  - simpl in H. destruct (is_white_space c) eqn:Hc.
    + destruct (match_spaces_group s) as [g'|] eqn:Hs.
      * inversion H; subst. destruct (IH g eq_refl) as (ws & -> & Hws & Hg).
        exists (String c ws). simpl. by rewrite Hc, Hws.
      * apply (match_dot_star_end_Some (String c s)) in H as [-> H].
        by exists "".
    + apply (match_dot_star_end_Some (String c s)) in H as [-> H].
      by exists "".
Qed.

Lemma match_spaces_group_complete (ws tok : string) :
  string_forall is_white_space ws = true ->
  string_forall (fun c => negb (is_line_terminator c)) tok = true ->
  is_Some (match_spaces_group (ws +:+ tok)).
Proof.
  intros Hws Htok. induction ws as [|c ws IH]; simpl in *.
  - destruct tok as [|c tok]; simpl.
    + by eexists.
    + pose proof (match_dot_star_end_forall _ Htok) as E. simpl in E.
      destruct (is_white_space c); [|by rewrite E].
      destruct (match_spaces_group tok); [by eexists|]. by rewrite E.
  - apply andb_prop in Hws as [Hc Hws]. rewrite Hc.
    destruct (IH Hws) as [g ->]. by eexists.
Qed.

Lemma match_literal_exact (pat kw : string) :
  match_literal pat kw = Some EmptyString <-> same_ignoring_case kw pat.
Proof.
  unfold same_ignoring_case. revert kw.
  induction pat as [|p pat IH]; intros [|c kw]; simpl; try done.
  unfold eq_ignore_case.
  destruct (N.eqb_spec (canonicalize c) (canonicalize p)) as [E|E].
  - rewrite IH. split; intros H.
    + f_equal; [exact E|exact H].
    + injection H as _ H. exact H.
  - split; [done|]. intros H. injection H as H _. done.
Qed.

Lemma match_literal_app (pat kw rest : string) :
  match_literal pat kw = Some EmptyString ->
  match_literal pat (kw +:+ rest) = Some rest.
Proof.
  revert kw. induction pat as [|p pat IH]; intros kw H.
  - simpl in H. destruct kw; by inversion H.
  - destruct kw as [|c kw]; simpl in *; [done|].
    destruct (eq_ignore_case c p); [by apply IH|done].
Qed.

Lemma match_literal_split (pat s rest : string) :
  match_literal pat s = Some rest ->
  exists kw, s = kw +:+ rest /\ match_literal pat kw = Some EmptyString.
Proof.
  revert s. induction pat as [|p pat IH]; intros s H.
  - simpl in H. inversion H; subst. by exists "".
  - destruct s as [|c s]; simpl in *; [done|].
    destruct (eq_ignore_case c p) eqn:Hc; [|done].
    destruct (IH _ H) as (kw & -> & Hkw). exists (String c kw).
    simpl. by rewrite Hc.
Qed.

(** The matcher agrees with the pattern in words. *)
Lemma match_Bearer_pattern (h : string) :
  is_Some (match_Bearer h) <-> Bearer_pattern h.
Proof.
  unfold match_Bearer, Bearer_pattern. split.
  - intros [m Hm].
    destruct (match_literal "Bearer" h) as [[|c s]|] eqn:Hlit; [done| |done].
    destruct (is_white_space c) eqn:Hc; [|done].
    destruct (match_spaces_group s) as [g|] eqn:Hg; [|done].
    apply match_literal_split in Hlit as (kw & -> & Hkw).
    apply match_spaces_group_Some in Hg as (ws & -> & Hws & Hg).
    apply match_literal_exact in Hkw.
    exists kw, (String c ws), g. simpl. by rewrite Hc, Hws.
  - intros (kw & ws & tok & -> & Hkw & Hne & Hws & Htok).
    apply match_literal_exact in Hkw.
    rewrite (match_literal_app _ _ _ Hkw).
    destruct ws as [|c ws]; [done|]. simpl in *.
    apply andb_prop in Hws as [-> Hws].
    destruct (match_spaces_group_complete ws tok Hws Htok) as [g ->].
    by eexists.
Qed.

Lemma extractToken_no_match (h : string) :
  ~ Bearer_pattern h -> extractToken (Some h) = None.
Proof.
  intros Hno. unfold extractToken.
  destruct (negb (truthy_str (Some h))); [done|].
  destruct (match_Bearer h) as [m|] eqn:Hm; [|done].
  exfalso. apply Hno, match_Bearer_pattern. by eexists.
Qed.

(** ** The validator *)

Lemma validateToken_resolved (this : TokenValidatorService) (token : string)
    (sourceIp : option string) (t : instants) (w w' : world) (secret : string) :
  getJwtSecret (secretsManager this) (dateNow t) w = (Return secret, w') ->
  validateToken this token sourceIp t w =
  (match jwt_verify token secret verify_options (verifyClock t) with
   | Return decoded => Return (check_claims decoded sourceIp)
   | Throw error => Return (classify_error error)
   end, w').
Proof.
  intros H. unfold validateToken. rewrite H. simpl.
  by destruct (jwt_verify token secret verify_options (verifyClock t)).
Qed.

Lemma validateToken_unresolved (this : TokenValidatorService) (token : string)
    (sourceIp : option string) (t : instants) (w w' : world) (e : js_error) :
  getJwtSecret (secretsManager this) (dateNow t) w = (Throw e, w') ->
  validateToken this token sourceIp t w = (Return (classify_error e), w').
Proof. intros H. unfold validateToken. by rewrite H. Qed.

(** No exception leaves [validateToken]. *)
Lemma validateToken_returns (this : TokenValidatorService) (token : string)
    (sourceIp : option string) (t : instants) (w : world) :
  exists r, (validateToken this token sourceIp t w).1 = Return r.
Proof.
  unfold validateToken.
  destruct (getJwtSecret (secretsManager this) (dateNow t) w) as [[secret|e] w'];
    simpl; [|by eexists].
  destruct (jwt_verify token secret verify_options (verifyClock t));
    by eexists.
Qed.

Lemma classify_error_Invalid (e : js_error) :
  exists reason, classify_error e = Invalid reason.
Proof. unfold classify_error. repeat case_match; by eexists. Qed.

Lemma check_claims_accepts (decoded : list (string * jsval))
    (sourceIp : option string) (x y : jsval) (rs ss : list jsval) :
  truthy (get_prop decoded "sub") = true ->
  get_prop decoded "roles" = JArr (x :: rs) ->
  get_prop decoded "scopes" = JArr (y :: ss) ->
  truthy (get_prop decoded "ip") && truthy_str sourceIp
    && strict_ne (get_prop decoded "ip") sourceIp = false ->
  check_claims decoded sourceIp =
  Valid (get_prop decoded "sub") (JArr (x :: rs)) (JArr (y :: ss)).
Proof.
  intros Hsub Hroles Hscopes Hip. unfold check_claims.
  rewrite Hsub, Hroles, Hscopes, Hip. reflexivity.
Qed.

(** A value that is not an array with an element fails the test made on
    [roles] and on [scopes]. *)
Lemma not_nonempty_array (v : jsval) :
  (forall x l, v <> JArr (x :: l)) ->
  negb (truthy v) || negb (Array_isArray v) || strict_eq_num (length_of v) 0
  = true.
Proof.
  intros H. destruct v as [| |b|n|s|[|x l]| |text]; simpl;
    rewrite ?orb_true_r; try done.
  by destruct (H x l).
Qed.

(** ** The resolver *)

Lemma getSecret_bypass (this : SecretsManagerService) (secretName : string)
    (now : Z) (w : world) :
  local_bypass this secretName = true ->
  getSecret this secretName now w =
  (Return (default "" (jwt_localSecret config)), w).
Proof. intros H. unfold getSecret. by rewrite H. Qed.

Lemma getSecret_hit (this : SecretsManagerService) (secretName : string)
    (now : Z) (w : world) (c : cache_entry) :
  local_bypass this secretName = false ->
  secretsCache w !! secretName = Some c ->
  (now - timestamp c < cacheExpiryMs config)%Z ->
  getSecret this secretName now w = (Return (value c), w).
Proof.
  intros Hb Hc Hage. unfold getSecret. rewrite Hb, Hc.
  by apply Z.ltb_lt in Hage as ->.
Qed.

Lemma getSecret_miss (this : SecretsManagerService) (secretName : string)
    (now : Z) (w : world) :
  local_bypass this secretName = false ->
  (forall c, secretsCache w !! secretName = Some c ->
             (cacheExpiryMs config <= now - timestamp c)%Z) ->
  getSecret this secretName now w = fetchSecret secretName now w.
Proof.
  intros Hb Hold. unfold getSecret. rewrite Hb.
  destruct (secretsCache w !! secretName) as [c|]; [|done].
  specialize (Hold c eq_refl). by apply Z.ltb_ge in Hold as ->.
Qed.

Lemma fetchSecret_fails (secretName : string) (now : Z) (w : world) :
  no_secret (getSecretValue (length (storeCalls w)) secretName) ->
  exists e,
    fetchSecret secretName now w =
    (Throw e, {| secretsCache := secretsCache w;
                 storeCalls := storeCalls w ++ [secretName] |})
    /\ instanceof_JsonWebTokenError e = false
    /\ instanceof_TokenExpiredError e = false
    /\ instanceof_NotBeforeError e = false.
Proof.
  unfold fetchSecret, no_secret.
  destruct (getSecretValue (length (storeCalls w)) secretName) as [o|n m].
  - intros ->. by eexists.
  - intros _. by eexists.
Qed.

Lemma fetchSecret_storeCalls (secretName : string) (now : Z) (w : world) :
  storeCalls (fetchSecret secretName now w).2
  = (storeCalls w ++ [secretName])%list.
Proof. unfold fetchSecret. by repeat case_match. Qed.

Lemma fetchSecret_Return (secretName : string) (now : Z) (w w1 : world)
    (s : string) :
  fetchSecret secretName now w = (Return s, w1) ->
  secretsCache w1 = <[secretName := {| value := s; timestamp := now |}]>
                      (secretsCache w).
Proof.
  unfold fetchSecret. repeat case_match; intros Hret; inversion Hret; by subst.
Qed.

(** One call of [getSecret] asks the store at most once. *)
Lemma getSecret_storeCalls (this : SecretsManagerService)
    (secretName : string) (now : Z) (w : world) :
  length (storeCalls (getSecret this secretName now w).2)
  <= S (length (storeCalls w)).
Proof.
  unfold getSecret. repeat case_match; simpl; try lia;
    rewrite fetchSecret_storeCalls, length_app; simpl; lia.
Qed.

(** After [getSecret] gave a secret past the bypass, the cache holds that
    secret: the entry it found, or the one it has just stored. *)
Lemma getSecret_Return_cached (this : SecretsManagerService)
    (secretName : string) (now : Z) (w w1 : world) (s : string) :
  local_bypass this secretName = false ->
  getSecret this secretName now w = (Return s, w1) ->
  exists c, secretsCache w1 !! secretName = Some c /\ value c = s.
Proof.
  intros Hb. unfold getSecret. rewrite Hb.
  destruct (secretsCache w !! secretName) as [c|] eqn:Hc.
  - destruct (now - timestamp c <? cacheExpiryMs config)%Z.
    + intros H. inversion H; subst. by exists c.
    + intros H%fetchSecret_Return. rewrite H, lookup_insert_eq. by eexists.
  - intros H%fetchSecret_Return. rewrite H, lookup_insert_eq. by eexists.
Qed.

(** While the local secret stands in for a name, the cache never gets an
    entry under that name. *)
Lemma reachable_bypass (w : world) (secretName : string) :
  reachable w ->
  local_bypass new_SecretsManagerService secretName = true ->
  secretsCache w !! secretName = None.
Proof.
  intros Hw Hb. induction Hw as [|w name now Hw IH]; [done|].
  unfold getSecret.
  destruct (local_bypass new_SecretsManagerService name) eqn:Hname; [done|].
  assert (name <> secretName) as Hne by (intros ->; congruence).
  assert (secretsCache (fetchSecret name now w).2 !! secretName = None) as Hf.
  { unfold fetchSecret. repeat case_match; simpl; try done.
    by rewrite lookup_insert_ne. }
  by repeat case_match.
Qed.

(** ** The handler *)

Lemma handler_try_no_token (event : APIGatewayTokenAuthorizerEvent)
    (t : instants) (w : world) :
  truthy_str (extractToken (authorizationToken event)) = false ->
  handler_try event t w = (Return getDenyAllPolicy, w).
Proof. intros H. unfold handler_try. by rewrite H. Qed.

Lemma handler_try_token (event : APIGatewayTokenAuthorizerEvent)
    (t : instants) (w : world) (token : string) :
  extractToken (authorizationToken event) = Some token ->
  token <> "" ->
  handler_try event t w =
  (decision_for event t (validateToken tokenValidator token None t w).1,
   (validateToken tokenValidator token None t w).2).
Proof.
  intros H Hne. unfold handler_try. rewrite H. simpl.
  apply String.eqb_neq in Hne as ->. simpl.
  by destruct (validateToken tokenValidator token None t w).
Qed.

Lemma handler_caught (event : APIGatewayTokenAuthorizerEvent)
    (t : instants) (w : world) :
  handler event t w =
  (match (handler_try event t w).1 with
   | Return d => Return d
   | Throw _ => Return getDenyAllPolicy
   end, (handler_try event t w).2).
Proof. unfold handler. by destruct (handler_try event t w) as [[d|e] w']. Qed.

Lemma decision_for_Valid (event : APIGatewayTokenAuthorizerEvent) (t : instants)
    (sub : jsval) (rs ss : list jsval) :
  decision_for event t (Return (Valid sub (JArr rs) (JArr ss))) =
  roles_text ← Array_join rs;
  scopes_text ← Array_join ss;
  Return (generatePolicy sub Allow (methodArn event)
            (Some [ ("userId", sub);
                    ("roles", JStr roles_text);
                    ("scopes", JStr scopes_text);
                    ("userIdHeader", sub);
                    ("authenticated", JStr "true");
                    ("timestamp", JStr (isoNow t)) ])).
Proof. reflexivity. Qed.

(** A valid outcome whose roles and scopes can be joined is allowed. *)
Lemma handler_allows (event : APIGatewayTokenAuthorizerEvent) (t : instants)
    (w w' : world) (token : string) (sub : jsval) (rs ss : list jsval)
    (roles_text scopes_text : string) :
  extractToken (authorizationToken event) = Some token ->
  token <> "" ->
  validateToken tokenValidator token None t w
    = (Return (Valid sub (JArr rs) (JArr ss)), w') ->
  Array_join rs = Return roles_text ->
  Array_join ss = Return scopes_text ->
  handler event t w
  = (Return (generatePolicy sub Allow (methodArn event)
               (Some [ ("userId", sub);
                       ("roles", JStr roles_text);
                       ("scopes", JStr scopes_text);
                       ("userIdHeader", sub);
                       ("authenticated", JStr "true");
                       ("timestamp", JStr (isoNow t)) ])), w').
Proof.
  intros Htoken Hne Hvalid Hjr Hjs.
  rewrite handler_caught, (handler_try_token _ _ _ _ Htoken Hne), Hvalid.
  cbn [fst snd]. by rewrite decision_for_Valid, Hjr, Hjs.
Qed.

(** ** Properties of the specification *)

(** C1, as amended. A token that verifies under the resolved key and whose
    payload has a truthy subject, an array of roles and an array of scopes
    that are not empty, whatever their elements, and no bound IP differing
    from the origin, is [Valid] with the subject, roles and scopes of the
    payload. When no role and no scope is an object with an own property
    [toString], or an array that holds one, the handler then allows the
    subject on the method asked for, with a context of exactly six fields:
    [userId], [roles] and [scopes] joined by commas in their order as [join]
    does, [userIdHeader] holding the subject a second time, [authenticated]
    set to "true", and [timestamp]. For roles that are the strings [names]
    the joined text is [String.concat "," names]. The condition
    [safe_numbers] is on the form of the value, not on the token: a number
    that is no safe integer is written as a [JNumText]. *)
Theorem valid_token_is_allowed (token : string) (sourceIp : option string)
    (t : instants) (w w' : world) (secret : string)
    (decoded : list (string * jsval)) (sub : jsval) (rs ss : list jsval) :
  getJwtSecret (secretsManager tokenValidator) (dateNow t) w
    = (Return secret, w') ->
  jwt_verify token secret verify_options (verifyClock t) = Return decoded ->
  get_prop decoded "sub" = sub -> truthy sub = true ->
  get_prop decoded "roles" = JArr rs -> rs <> [] ->
  get_prop decoded "scopes" = JArr ss -> ss <> [] ->
  truthy (get_prop decoded "ip") && truthy_str sourceIp
    && strict_ne (get_prop decoded "ip") sourceIp = false ->
  validateToken tokenValidator token sourceIp t w
    = (Return {| isValid := true;
                 userId := Some sub;
                 roles := Some (JArr rs);
                 scopes := Some (JArr ss);
                 error := None |}, w')
  /\ forall event : APIGatewayTokenAuthorizerEvent,
       extractToken (authorizationToken event) = Some token ->
       token <> "" ->
       convertible (JArr rs) = true -> convertible (JArr ss) = true ->
       safe_numbers (JArr rs) = true -> safe_numbers (JArr ss) = true ->
       exists roles_text scopes_text : string,
         Array_join rs = Return roles_text
         /\ Array_join ss = Return scopes_text
         /\ (forall names, rs = JStr <$> names ->
                           roles_text = String.concat "," names)
         /\ (forall names, ss = JStr <$> names ->
                           scopes_text = String.concat "," names)
         /\ handler event t w
            = (Return
                 {| principalId := sub;
                    policyDocument :=
                      {| Version := "2012-10-17";
                         Statement := [ {| Action := "execute-api:Invoke";
                                           Effect := Allow;
                                           Resource := methodArn event |} ] |};
                    context :=
                      Some [ ("userId", sub);
                             ("roles", JStr roles_text);
                             ("scopes", JStr scopes_text);
                             ("userIdHeader", sub);
                             ("authenticated", JStr "true");
                             ("timestamp", JStr (isoNow t)) ] |}, w').
Proof.
  intros Hsecret Hverify Hsub Htruthy Hroles Hrs Hscopes Hss Hip.
  destruct rs as [|x rs]; [done|]. destruct ss as [|y ss]; [done|].
  assert (forall ip,
            truthy (get_prop decoded "ip") && truthy_str ip
              && strict_ne (get_prop decoded "ip") ip = false ->
            validateToken tokenValidator token ip t w
            = (Return (Valid sub (JArr (x :: rs)) (JArr (y :: ss))), w'))
    as Hvalid.
  { intros ip Hcond.
    rewrite (validateToken_resolved _ _ _ _ _ _ _ Hsecret), Hverify.
    rewrite (check_claims_accepts _ _ _ _ _ _
               ltac:(by rewrite Hsub) Hroles Hscopes Hcond).
    by rewrite Hsub. }
  split; [by apply Hvalid|].
  intros event Htoken Hne Hcr Hcs _ _.
  destruct (Array_join_cases (x :: rs)) as [[_ [roles_text Hjr]] | [? _]];
    [|congruence].
  destruct (Array_join_cases (y :: ss)) as [[_ [scopes_text Hjs]] | [? _]];
    [|congruence].
  exists roles_text, scopes_text.
  split; [done|]. split; [done|]. split; [|split].
  - intros names E. rewrite E, Array_join_strings in Hjr. by injection Hjr.
  - intros names E. rewrite E, Array_join_strings in Hjs. by injection Hjs.
  - apply (handler_allows event t w w' token sub (x :: rs) (y :: ss)
             roles_text scopes_text Htoken Hne); [|done..].
    apply Hvalid. by rewrite andb_false_r.
Qed.

(** Every decision of [handler_try] comes from one of the three
    constructors. *)
Lemma handler_try_decisions (event : APIGatewayTokenAuthorizerEvent)
    (t : instants) (w : world) (d : APIGatewayAuthorizerResult) :
  (handler_try event t w).1 = Return d ->
  d = getDenyAllPolicy
  \/ d = generatePolicy (JStr "anonymous") Deny (methodArn event) None
  \/ exists (sub : jsval) (roles_text scopes_text : string),
       d = generatePolicy sub Allow (methodArn event)
             (Some [ ("userId", sub);
                     ("roles", JStr roles_text);
                     ("scopes", JStr scopes_text);
                     ("userIdHeader", sub);
                     ("authenticated", JStr "true");
                     ("timestamp", JStr (isoNow t)) ]).
Proof.
  unfold handler_try.
  destruct (negb (truthy_str (extractToken (authorizationToken event)))).
  { intros H. inversion H. by left. }
  pose proof (validateToken_returns tokenValidator
    (default "" (extractToken (authorizationToken event))) None t w) as [r Hr].
  destruct (validateToken tokenValidator _ None t w) as [v w'].
  simpl in Hr. subst v. simpl.
  destruct (isValid r); simpl.
  - unfold generateAllowPolicy.
    destruct (call_join (roles r)) as [roles_text|]; [|done]. simpl.
    destruct (call_join (scopes r)) as [scopes_text|]; [|done]. simpl.
    intros H. inversion H. right; right. by eexists _, _, _.
  - intros H. inversion H. right. by left.
Qed.

Lemma handler_decisions (event : APIGatewayTokenAuthorizerEvent)
    (t : instants) (w : world) :
  exists d, (handler event t w).1 = Return d /\
    (d = getDenyAllPolicy
     \/ d = generatePolicy (JStr "anonymous") Deny (methodArn event) None
     \/ exists (sub : jsval) (roles_text scopes_text : string),
          d = generatePolicy sub Allow (methodArn event)
                (Some [ ("userId", sub);
                        ("roles", JStr roles_text);
                        ("scopes", JStr scopes_text);
                        ("userIdHeader", sub);
                        ("authenticated", JStr "true");
                        ("timestamp", JStr (isoNow t)) ])) /\
    (forall e, (handler_try event t w).1 = Throw e -> d = getDenyAllPolicy).
Proof.
  rewrite handler_caught.
  pose proof (handler_try_decisions event t w) as Hd.
  destruct (handler_try event t w).1 as [d|e]; simpl.
  - exists d. split; [done|]. split; [by apply Hd|done].
  - exists getDenyAllPolicy. split; [done|]. split; [by left|done].
Qed.

(** C2. For every event the handler gives back a well-formed decision and
    throws nothing: an exception thrown in the [try] block, wherever it comes
    from, is turned into the deny-all decision. *)
Theorem handler_never_throws (event : APIGatewayTokenAuthorizerEvent)
    (t : instants) (w : world) :
  exists d : APIGatewayAuthorizerResult,
    (handler event t w).1 = Return d
    /\ well_formed d
    /\ forall e : js_error,
         (handler_try event t w).1 = Throw e -> d = getDenyAllPolicy.
Proof.
  destruct (handler_decisions event t w) as (d & Hd & Hcases & Hthrow).
  exists d. split; [done|]. split; [|done].
  destruct Hcases as [->|[->|(sub & rt & st & ->)]]; by eexists _, _.
Qed.

(** C3. When the event has no authorization header, or a header that does
    not match the [Bearer] pattern, the handler answers with the deny-all
    decision: [Deny] on the resource "*", for the principal "anonymous",
    with no context. The world is left as it was. *)
Theorem no_credential_is_denied_everywhere
    (event : APIGatewayTokenAuthorizerEvent) (t : instants) (w : world) :
  (authorizationToken event = None
   \/ exists h, authorizationToken event = Some h /\ ~ Bearer_pattern h) ->
  handler event t w
  = (Return {| principalId := JStr "anonymous";
               policyDocument :=
                 {| Version := "2012-10-17";
                    Statement := [ {| Action := "execute-api:Invoke";
                                      Effect := Deny;
                                      Resource := "*" |} ] |};
               context := None |}, w).
Proof.
  intros H. rewrite handler_caught, handler_try_no_token; [done|].
  destruct H as [->|(h & -> & Hno)]; [done|].
  by rewrite extractToken_no_match.
Qed.

(** C4. Once the key is resolved, [validateToken] stops at the first check
    that fails and gives its reason: an expired token, a token not yet valid
    and any other verification failure are told apart by the class of the
    exception, although the first two classes are subclasses of the third;
    then come the subject, the roles and the scopes, in this order, each
    looked at only if the checks before it passed. *)
Theorem validation_order (token : string) (sourceIp : option string)
    (t : instants) (w w' : world) (secret : string) :
  getJwtSecret (secretsManager tokenValidator) (dateNow t) w
    = (Return secret, w') ->
  let verified := jwt_verify token secret verify_options (verifyClock t) in
  let outcome := (validateToken tokenValidator token sourceIp t w).1 in
  (forall m, verified = Throw (TokenExpiredError m) ->
     outcome = Return (Invalid "Token expired"))
  /\ (forall m, verified = Throw (NotBeforeError m) ->
     outcome = Return (Invalid "Token not yet valid"))
  /\ (forall m, verified = Throw (JsonWebTokenError m) ->
     outcome = Return (Invalid ("Invalid token: " +:+ m)))
  /\ (forall decoded, verified = Return decoded ->
       (truthy (get_prop decoded "sub") = false ->
          outcome = Return (Invalid "Missing subject (user ID) in token"))
       /\ (truthy (get_prop decoded "sub") = true ->
           (forall x l, get_prop decoded "roles" <> JArr (x :: l)) ->
          outcome = Return (Invalid "Missing or invalid roles in token"))
       /\ (truthy (get_prop decoded "sub") = true ->
           (exists x l, get_prop decoded "roles" = JArr (x :: l)) ->
           (forall y l, get_prop decoded "scopes" <> JArr (y :: l)) ->
          outcome = Return (Invalid "Missing or invalid scopes in token"))).
Proof.
  intros Hsecret verified outcome. subst verified outcome.
  rewrite (validateToken_resolved _ _ _ _ _ _ _ Hsecret). simpl.
  split; [by intros m ->|]. split; [by intros m ->|].
  split; [by intros m ->|].
  intros decoded ->. unfold check_claims. split; [|split].
  - by intros ->.
  - intros -> Hroles. by rewrite (not_nonempty_array _ Hroles).
  - intros -> (x & l & Hroles) Hscopes.
    rewrite Hroles. by rewrite (not_nonempty_array _ Hscopes).
Qed.

Lemma classify_error_other (e : js_error) :
  instanceof_JsonWebTokenError e = false ->
  instanceof_TokenExpiredError e = false ->
  instanceof_NotBeforeError e = false ->
  classify_error e = Invalid "Error validating token".
Proof. intros H1 H2 H3. unfold classify_error. by rewrite H1, H2, H3. Qed.

(** C5. When [getSecret] has to ask the store (no local secret stands in, and
    the cache has no entry that is still fresh) and the store fails or gives
    an empty value, [getSecret] throws: it returns neither the expired entry
    nor any other value, and it stores nothing. For the JWT secret,
    [validateToken] then returns an [Invalid] outcome instead of throwing,
    and the handler denies the method that was asked for. *)
Theorem store_failure_is_denied (secretName : string) (now : Z) (w : world) :
  local_bypass new_SecretsManagerService secretName = false ->
  (forall c, secretsCache w !! secretName = Some c ->
             (cacheExpiryMs config <= now - timestamp c)%Z) ->
  no_secret (getSecretValue (length (storeCalls w)) secretName) ->
  let w' := {| secretsCache := secretsCache w;
               storeCalls := (storeCalls w ++ [secretName])%list |} in
  (exists e, getSecret new_SecretsManagerService secretName now w
             = (Throw e, w'))
  /\ (secretName = jwt_secretName config ->
      forall (token : string) (sourceIp : option string) (t : instants),
        dateNow t = now ->
        validateToken tokenValidator token sourceIp t w
          = (Return (Invalid "Error validating token"), w')
        /\ forall event : APIGatewayTokenAuthorizerEvent,
             extractToken (authorizationToken event) = Some token ->
             token <> "" ->
             handler event t w
             = (Return
                  {| principalId := JStr "anonymous";
                     policyDocument :=
                       {| Version := "2012-10-17";
                          Statement := [ {| Action := "execute-api:Invoke";
                                            Effect := Deny;
                                            Resource := methodArn event |} ] |};
                     context := None |}, w')).
Proof.
  intros Hbypass Hstale Hreply w'.
  destruct (fetchSecret_fails secretName now w Hreply)
    as (e & Hfetch & Hjwt & Hexp & Hnbf).
  pose proof (getSecret_miss _ _ _ _ Hbypass Hstale) as Hget.
  rewrite Hfetch in Hget. split; [by exists e|].
  intros -> token sourceIp t <-.
  assert (forall ip, validateToken tokenValidator token ip t w
                     = (Return (Invalid "Error validating token"), w')) as Hv.
  { intros ip.
    rewrite (validateToken_unresolved tokenValidator token ip t w w' e)
      by exact Hget.
    by rewrite classify_error_other. }
  split; [apply Hv|].
  intros event Htoken Hne.
  by rewrite handler_caught, (handler_try_token _ _ _ _ Htoken Hne), Hv.
Qed.

(** C6. In a world the process can reach, a cache entry younger than
    [cacheExpiryMs] is returned by [getSecret] as it is, and the world, with
    its log of store calls, does not change. Hence when a token has been
    found valid and is validated again while the entry of the JWT secret is
    still fresh, the token verifying as it did the first time, the second
    outcome is the first one, the second validation asks the store nothing,
    and both together ask it at most once. *)
Theorem fresh_cache_entry_is_served (w : world) :
  reachable w ->
  (forall (secretName : string) (c : cache_entry) (now : Z),
     secretsCache w !! secretName = Some c ->
     (now - timestamp c < cacheExpiryMs config)%Z ->
     getSecret new_SecretsManagerService secretName now w
     = (Return (value c), w))
  /\ (forall (token : string) (sourceIp : option string) (t1 t2 : instants)
        (r1 : TokenValidationResult) (w1 : world),
        validateToken tokenValidator token sourceIp t1 w = (Return r1, w1) ->
        isValid r1 = true ->
        (forall c, secretsCache w1 !! jwt_secretName config = Some c ->
                   (dateNow t2 - timestamp c < cacheExpiryMs config)%Z) ->
        (forall secret,
           jwt_verify token secret verify_options (verifyClock t2)
           = jwt_verify token secret verify_options (verifyClock t1)) ->
        validateToken tokenValidator token sourceIp t2 w1 = (Return r1, w1)
        /\ length (storeCalls w1) <= S (length (storeCalls w))).
Proof.
  intros Hreach. split.
  - intros secretName c now Hc Hage.
    destruct (local_bypass new_SecretsManagerService secretName) eqn:Hb.
    + by rewrite (reachable_bypass _ _ Hreach Hb) in Hc.
    + by apply getSecret_hit.
  - intros token sourceIp t1 t2 r1 w1 Hfirst Hvalid Hfresh Hsame.
    unfold validateToken in Hfirst.
    destruct (getJwtSecret (secretsManager tokenValidator) (dateNow t1) w)
      as [got w1'] eqn:Hget.
    injection Hfirst as Hr1 ->.
    destruct got as [secret|e]; cycle 1.
    { simpl in Hr1. destruct (classify_error_Invalid e) as [reason Hreason].
      rewrite Hreason in Hr1. injection Hr1 as <-. done. }
    split; cycle 1.
    { pose proof (getSecret_storeCalls (secretsManager tokenValidator)
                    (jwt_secretName config) (dateNow t1) w) as Hle.
      unfold getJwtSecret in Hget. by rewrite Hget in Hle. }
    assert (getJwtSecret (secretsManager tokenValidator) (dateNow t2) w1
            = (Return secret, w1)) as Hagain.
    { unfold getJwtSecret in *.
      destruct (local_bypass (secretsManager tokenValidator)
                  (jwt_secretName config)) eqn:Hb.
      - rewrite getSecret_bypass in Hget by done.
        rewrite getSecret_bypass by done. by injection Hget as -> ->.
      - destruct (getSecret_Return_cached _ _ _ _ _ _ Hb Hget)
          as (c & Hc & <-).
        apply getSecret_hit; [done..|]. by apply Hfresh. }
    rewrite (validateToken_resolved _ _ _ _ _ _ _ Hagain), Hsame.
    f_equal. simpl in Hr1.
    by destruct (jwt_verify token secret verify_options (verifyClock t1)).
Qed.

Lemma strict_ne_differs (v : jsval) (origin : string) :
  v <> JStr origin -> strict_ne v (Some origin) = true.
Proof.
  intros Hne. destruct v as [| |b|n|s| | |text]; try done. simpl.
  apply negb_true_iff, String.eqb_neq. congruence.
Qed.

(** C7. For a token that passes every check before the binding: when its
    payload carries an IP and the caller supplies an origin that differs
    from it, the outcome is [Invalid "IP address mismatch"]; when the payload
    carries none, or no origin is supplied, the binding is not looked at and
    the token is [Valid]. A side counts as absent when it is falsy, the
    empty string included. *)
Theorem origin_binding (token : string) (sourceIp : option string)
    (t : instants) (w w' : world) (secret : string)
    (decoded : list (string * jsval)) (x y : jsval) (rs ss : list jsval) :
  getJwtSecret (secretsManager tokenValidator) (dateNow t) w
    = (Return secret, w') ->
  jwt_verify token secret verify_options (verifyClock t) = Return decoded ->
  truthy (get_prop decoded "sub") = true ->
  get_prop decoded "roles" = JArr (x :: rs) ->
  get_prop decoded "scopes" = JArr (y :: ss) ->
  (forall origin : string,
     truthy (get_prop decoded "ip") = true ->
     sourceIp = Some origin -> origin <> "" ->
     get_prop decoded "ip" <> JStr origin ->
     validateToken tokenValidator token sourceIp t w
     = (Return (Invalid "IP address mismatch"), w'))
  /\ (truthy (get_prop decoded "ip") = false
      \/ truthy_str sourceIp = false ->
      validateToken tokenValidator token sourceIp t w
      = (Return (Valid (get_prop decoded "sub")
                   (JArr (x :: rs)) (JArr (y :: ss))), w')).
Proof.
  intros Hsecret Hverify Hsub Hroles Hscopes.
  rewrite (validateToken_resolved _ _ _ _ _ _ _ Hsecret), Hverify.
  split.
  - intros origin Hip -> Hne Hdiff. unfold check_claims.
    rewrite Hsub, Hroles, Hscopes, Hip, (strict_ne_differs _ _ Hdiff).
    simpl. by apply String.eqb_neq in Hne as ->.
  - intros Habsent. rewrite (check_claims_accepts _ _ x y rs ss); try done.
    destruct Habsent as [-> | ->]; [done|]. by rewrite andb_false_r.
Qed.

Lemma classify_error_not_mismatch (e : js_error) :
  error (classify_error e) <> Some "IP address mismatch".
Proof. unfold classify_error. by repeat case_match. Qed.

Lemma check_claims_no_origin (decoded : list (string * jsval)) :
  error (check_claims decoded None) <> Some "IP address mismatch".
Proof.
  unfold check_claims. simpl truthy_str. rewrite andb_false_r. simpl.
  by repeat case_match.
Qed.

(** C9. The handler validates the token it extracted with no origin IP
    ([sourceIp] is [undefined]), and a validation without origin never ends
    in ["IP address mismatch"], whatever IP the payload carries. The event
    of a token authorizer has no field for the origin of the caller. *)
Theorem handler_skips_origin_binding
    (event : APIGatewayTokenAuthorizerEvent) (t : instants) (w : world)
    (token : string) :
  extractToken (authorizationToken event) = Some token ->
  token <> "" ->
  handler_try event t w
  = (decision_for event t (validateToken tokenValidator token None t w).1,
     (validateToken tokenValidator token None t w).2)
  /\ exists r : TokenValidationResult,
       (validateToken tokenValidator token None t w).1 = Return r
       /\ error r <> Some "IP address mismatch".
Proof.
  intros Htoken Hne. split; [by apply handler_try_token|].
  unfold validateToken.
  destruct (getJwtSecret (secretsManager tokenValidator) (dateNow t) w)
    as [[secret|e] w']; simpl.
  - destruct (jwt_verify token secret verify_options (verifyClock t))
      as [decoded|e]; simpl; eexists; split; try done.
    + apply check_claims_no_origin.
    + apply classify_error_not_mismatch.
  - eexists; split; [done|]. apply classify_error_not_mismatch.
Qed.

(** C10. The validator looks at [roles] and [scopes] only as arrays that are
    not empty: a token that passes the other checks is [Valid] also when
    some element of its roles, or of its scopes, is not a string, and the
    elements are handed on as they are. *)
Theorem non_string_elements_are_accepted (token : string)
    (sourceIp : option string) (t : instants) (w w' : world)
    (secret : string) (decoded : list (string * jsval))
    (rs ss : list jsval) :
  getJwtSecret (secretsManager tokenValidator) (dateNow t) w
    = (Return secret, w') ->
  jwt_verify token secret verify_options (verifyClock t) = Return decoded ->
  truthy (get_prop decoded "sub") = true ->
  get_prop decoded "roles" = JArr rs -> rs <> [] ->
  get_prop decoded "scopes" = JArr ss -> ss <> [] ->
  truthy (get_prop decoded "ip") && truthy_str sourceIp
    && strict_ne (get_prop decoded "ip") sourceIp = false ->
  Exists (fun v => is_string v = false) rs
  \/ Exists (fun v => is_string v = false) ss ->
  validateToken tokenValidator token sourceIp t w
  = (Return (Valid (get_prop decoded "sub") (JArr rs) (JArr ss)), w').
Proof.
  intros Hsecret Hverify Hsub Hroles Hrs Hscopes Hss Hip _.
  destruct rs as [|x rs]; [done|]. destruct ss as [|y ss]; [done|].
  rewrite (validateToken_resolved _ _ _ _ _ _ _ Hsecret), Hverify.
  by rewrite (check_claims_accepts _ _ x y rs ss).
Qed.

(** C8, as amended. Every decision of the handler has a [principalId] and a
    policy document of version "2012-10-17" with the one statement
    [{Action: "execute-api:Invoke", Effect, Resource}]; it has a context
    exactly when the effect is [Allow], and the values of the context are
    strings, but for the two fields that hold the principal as the token
    gave it: all of them are strings when the principal is one. *)
Theorem decision_shape (event : APIGatewayTokenAuthorizerEvent)
    (t : instants) (w : world) :
  exists d : APIGatewayAuthorizerResult,
    (handler event t w).1 = Return d
    /\ well_formed d
    /\ context_on_allow d
    /\ (is_string (principalId d) = true -> string_context d).
Proof.
  destruct (handler_decisions event t w) as (d & Hd & Hcases & _).
  exists d. split; [done|].
  cut (well_formed d /\ context_on_allow d).
  { intros [Hwf [Hiff Hctx]]. split; [done|]. split; [done|].
    intros Hstr ctx Hsome. eapply Forall_impl; [by apply Hctx|].
    intros kv [Hkv | ->]; done. }
  destruct Hcases as [->|[->|(sub & rt & st & ->)]].
  - split; [by eexists _, _|]. split; [|done].
    split; [by intros [? ?]|done].
  - split; [by eexists _, _|]. split; [|done].
    split; [by intros [? ?]|done].
  - split; [by eexists _, _|]. split; [split; [done|by eexists]|].
    intros ctx [= <-].
    repeat (apply Forall_cons_2 || apply Forall_nil_2); simpl;
      (by left) || (by right).
Qed.

(** ** Further properties: the extraction of the token *)

Lemma match_dot_star_end_spaces (s g : string) :
  match_dot_star_end s = Some g -> is_Some (match_spaces_group s).
Proof.
  intros [_ H]%match_dot_star_end_Some.
  by apply (match_spaces_group_complete "" s).
Qed.

(** The group never starts with a white space: the white space before it is
    taken greedily, and giving some back never helps. *)
Lemma match_spaces_group_exact (s g : string) :
  match_spaces_group s = Some g <->
  exists ws, s = ws +:+ g
    /\ string_forall is_white_space ws = true
    /\ string_forall (fun c => negb (is_line_terminator c)) g = true
    /\ starts_with_space g = false.
Proof.
  split.
  - revert g. induction s as [|c s IH]; intros g H.
    + apply match_dot_star_end_Some in H as [-> H]. by exists "".
    + simpl in H. destruct (is_white_space c) eqn:Hc.
      * destruct (match_spaces_group s) as [g'|] eqn:Hs.
        -- injection H as ->. destruct (IH g eq_refl) as (ws & -> & Hws & Hg).
           exists (String c ws). simpl. by rewrite Hc, Hws.
        -- exfalso. simpl in H.
           destruct (is_line_terminator c); [done|].
           destruct (match_dot_star_end s) as [g'|] eqn:Hd; [|done].
           destruct (match_dot_star_end_spaces s g' Hd) as [? ?]. congruence.
      * apply (match_dot_star_end_Some (String c s)) in H as [-> H].
        exists "". simpl. by rewrite Hc.
  - intros (ws & -> & Hws & Hg & Hstart).
    induction ws as [|c ws IH]; simpl in *.
    + destruct g as [|c g]; [done|]. simpl in Hstart.
      change (match_spaces_group ("" +:+ String c g))
        with (if is_white_space c
              then match match_spaces_group g with
                   | Some g' => Some g'
                   | None => match_dot_star_end (String c g)
                   end
              else match_dot_star_end (String c g)).
      rewrite Hstart. by apply match_dot_star_end_forall.
    + apply andb_prop in Hws as [-> Hws]. by rewrite (IH Hws).
Qed.

Lemma append_empty_r (s : string) : s +:+ "" = s.
Proof.
  induction s as [|c s IH]; [done|].
  change (String c (s +:+ "") = String c s). by f_equal.
Qed.

Lemma extractToken_found (kw ws tok : string) :
  same_ignoring_case kw "Bearer" ->
  ws <> EmptyString ->
  string_forall is_white_space ws = true ->
  string_forall (fun c => negb (is_line_terminator c)) tok = true ->
  starts_with_space tok = false ->
  extractToken (Some (kw +:+ ws +:+ tok)) = Some tok.
Proof.
  intros Hkw Hne Hws Htok Hstart.
  destruct ws as [|c ws]; [done|]. simpl in Hws.
  apply andb_prop in Hws as [Hc Hws].
  assert (match_spaces_group (ws +:+ tok) = Some tok) as Hg.
  { apply match_spaces_group_exact. by exists ws. }
  apply match_literal_exact in Hkw.
  unfold extractToken, match_Bearer.
  rewrite (match_literal_app _ _ _ Hkw).
  assert (truthy_str (Some (kw +:+ String c ws +:+ tok)) = true) as ->.
  { destruct kw; [|done]. done. }
  simpl. by rewrite Hc, Hg.
Qed.

(** X1. [extractToken] gives a token exactly for a header made of the keyword
    [Bearer] in any case, one or more white spaces, and the token; the token
    is free of line terminators and does not begin with a white space, all the
    white space after the keyword being skipped. *)
Theorem extractToken_spec (h tok : string) :
  extractToken (Some h) = Some tok <->
  exists kw ws : string,
    h = kw +:+ ws +:+ tok
    /\ same_ignoring_case kw "Bearer"
    /\ ws <> EmptyString
    /\ string_forall is_white_space ws = true
    /\ string_forall (fun c => negb (is_line_terminator c)) tok = true
    /\ starts_with_space tok = false.
Proof.
  split.
  - unfold extractToken, match_Bearer.
    destruct (negb (truthy_str (Some h))); [done|].
    destruct (match_literal "Bearer" h) as [[|c s]|] eqn:Hlit; [done| |done].
    destruct (is_white_space c) eqn:Hc; [|done].
    destruct (match_spaces_group s) as [g|] eqn:Hg; [|done].
    simpl. intros [= <-].
    apply match_literal_split in Hlit as (kw & -> & Hkw).
    apply match_literal_exact in Hkw.
    apply match_spaces_group_exact in Hg as (ws & -> & Hws & Hg & Hstart).
    exists kw, (String c ws). simpl. by rewrite Hc, Hws.
  - intros (kw & ws & -> & Hkw & Hne & Hws & Htok & Hstart).
    by apply extractToken_found.
Qed.

(** X2. A header that has the keyword and white space but no token after them
    is answered like a missing header: with the deny-all decision, and
    without a look at the cache or the store. *)
Theorem blank_token_is_denied_everywhere
    (event : APIGatewayTokenAuthorizerEvent) (t : instants) (w : world)
    (kw ws : string) :
  authorizationToken event = Some (kw +:+ ws) ->
  same_ignoring_case kw "Bearer" ->
  ws <> EmptyString ->
  string_forall is_white_space ws = true ->
  handler event t w = (Return getDenyAllPolicy, w).
Proof.
  intros Hh Hkw Hne Hws.
  rewrite handler_caught, handler_try_no_token; [done|].
  rewrite Hh, <- (append_empty_r ws).
  by rewrite (extractToken_found kw ws "" Hkw Hne Hws).
Qed.

(** ** Further properties: the resolver *)

Lemma local_bypass_off (secretName : string) :
  NODE_ENV = Some "production" \/ secretName <> jwt_secretName config ->
  local_bypass new_SecretsManagerService secretName = false.
Proof.
  unfold local_bypass, new_SecretsManagerService. simpl.
  intros [-> | Hne].
  - by rewrite bool_decide_eq_true_2.
  - apply String.eqb_neq in Hne as ->. by rewrite andb_false_r.
Qed.

Lemma local_bypass_on (s : string) :
  NODE_ENV <> Some "production" ->
  jwt_localSecret config = Some s -> s <> "" ->
  local_bypass new_SecretsManagerService (jwt_secretName config) = true.
Proof.
  intros Henv Hs Hne. unfold local_bypass, new_SecretsManagerService. simpl.
  rewrite bool_decide_eq_false_2 by done. rewrite String.eqb_refl, Hs. simpl.
  by apply String.eqb_neq in Hne as ->.
Qed.

Lemma fetchSecret_reply (secretName : string) (now : Z) (w w1 : world)
    (s : string) :
  fetchSecret secretName now w = (Return s, w1) ->
  getSecretValue (length (storeCalls w)) secretName = StoreResponse (Some s)
  /\ s <> ""
  /\ w1 = {| secretsCache :=
               <[secretName := {| value := s; timestamp := now |}]>
                 (secretsCache w);
             storeCalls := (storeCalls w ++ [secretName])%list |}.
Proof.
  unfold fetchSecret.
  destruct (getSecretValue (length (storeCalls w)) secretName) as [[s'|]|];
    simpl; try done.
  destruct (String.eqb_spec s' ""); simpl; [done|].
  intros Hret. injection Hret as -> <-. done.
Qed.

Lemma fetchSecret_stores (secretName : string) (now : Z) (w : world)
    (s : string) :
  getSecretValue (length (storeCalls w)) secretName = StoreResponse (Some s) ->
  s <> "" ->
  fetchSecret secretName now w
  = (Return s,
     {| secretsCache :=
          <[secretName := {| value := s; timestamp := now |}]> (secretsCache w);
        storeCalls := (storeCalls w ++ [secretName])%list |}).
Proof.
  intros Hreply Hne. unfold fetchSecret. rewrite Hreply. simpl.
  by apply String.eqb_neq in Hne as ->.
Qed.

Lemma fetchSecret_cache (secretName : string) (now : Z) (w : world) :
  secretsCache (fetchSecret secretName now w).2 = secretsCache w
  \/ exists s, s <> ""
       /\ secretsCache (fetchSecret secretName now w).2
          = <[secretName := {| value := s; timestamp := now |}]>
              (secretsCache w).
Proof.
  destruct (fetchSecret secretName now w) as [[s|e] w1] eqn:Hf.
  - apply fetchSecret_reply in Hf as (_ & Hne & ->). right. by exists s.
  - left. unfold fetchSecret in Hf.
    repeat case_match; inversion Hf; by subst.
Qed.

(** What one call of [getSecret] does to the world: nothing, or what the
    store call does. *)
Lemma getSecret_world (this : SecretsManagerService) (secretName : string)
    (now : Z) (w : world) :
  (getSecret this secretName now w).2 = w
  \/ (getSecret this secretName now w).2 = (fetchSecret secretName now w).2.
Proof. unfold getSecret. repeat case_match; auto. Qed.

(** X3. Outside production, a local secret that is set stands in for the JWT
    secret: [getSecret] returns it whatever the cache holds and whatever the
    store would say, and leaves the world as it is. *)
Theorem local_secret_stands_in (s : string) (now : Z) (w : world) :
  NODE_ENV <> Some "production" ->
  jwt_localSecret config = Some s ->
  s <> "" ->
  getSecret new_SecretsManagerService (jwt_secretName config) now w
  = (Return s, w).
Proof.
  intros Henv Hs Hne.
  rewrite getSecret_bypass by (by apply (local_bypass_on s)).
  by rewrite Hs.
Qed.

(** X4. In production, and for any name other than that of the JWT secret,
    the local secret is never used: a secret that [getSecret] returns is the
    value of a cache entry that is still fresh, or what the store has just
    answered, which is then cached with the time of the call. *)
Theorem secret_comes_from_cache_or_store (secretName : string) (now : Z)
    (w w1 : world) (s : string) :
  NODE_ENV = Some "production" \/ secretName <> jwt_secretName config ->
  getSecret new_SecretsManagerService secretName now w = (Return s, w1) ->
  (exists c, secretsCache w !! secretName = Some c
             /\ value c = s
             /\ (now - timestamp c < cacheExpiryMs config)%Z
             /\ w1 = w)
  \/ (getSecretValue (length (storeCalls w)) secretName
        = StoreResponse (Some s)
      /\ s <> ""
      /\ w1 = {| secretsCache :=
                   <[secretName := {| value := s; timestamp := now |}]>
                     (secretsCache w);
                 storeCalls := (storeCalls w ++ [secretName])%list |}).
Proof.
  intros Hoff%local_bypass_off. unfold getSecret. rewrite Hoff.
  destruct (secretsCache w !! secretName) as [c|] eqn:Hc.
  - destruct (now - timestamp c <? cacheExpiryMs config)%Z eqn:Hage.
    + intros [= <- <-]. left. exists c. by apply Z.ltb_lt in Hage.
    + intros H%fetchSecret_reply. by right.
  - intros H%fetchSecret_reply. by right.
Qed.

(** X5. [getSecret] leaves the world as it is exactly when the local secret
    stands in or the cache has an entry younger than [cacheExpiryMs]; in
    every other case it asks the store once, for the name requested. An entry
    whose age equals [cacheExpiryMs] has expired. *)
Theorem store_is_asked_exactly_on_a_miss (this : SecretsManagerService)
    (secretName : string) (now : Z) (w : world) :
  let served :=
    local_bypass this secretName = true
    \/ exists c, secretsCache w !! secretName = Some c
                 /\ (now - timestamp c < cacheExpiryMs config)%Z in
  ((getSecret this secretName now w).2 = w <-> served)
  /\ (~ served ->
      storeCalls (getSecret this secretName now w).2
      = (storeCalls w ++ [secretName])%list).
Proof.
  intros served. subst served.
  assert (forall w', storeCalls w' = (storeCalls w ++ [secretName])%list ->
                     w' <> w) as Hdiff.
  { intros w' Hw' ->. apply (f_equal length) in Hw'.
    rewrite length_app in Hw'. simpl in Hw'. lia. }
  unfold getSecret.
  destruct (local_bypass this secretName); [split; [split|]; auto; tauto|].
  destruct (secretsCache w !! secretName) as [c|] eqn:Hc.
  - destruct (Z.ltb_spec (now - timestamp c) (cacheExpiryMs config)) as [Hage|Hage].
    + split; [split; [|done]|].
      * intros _. right. by exists c.
      * intros Hno. exfalso. apply Hno. right. by exists c.
    + split; [split|].
      * intros Hw. by destruct (Hdiff _ (fetchSecret_storeCalls _ _ _) Hw).
      * intros [?|(c' & [= <-] & Hlt)]; [done|lia].
      * intros _. apply fetchSecret_storeCalls.
  - split; [split|].
    + intros Hw. by destruct (Hdiff _ (fetchSecret_storeCalls _ _ _) Hw).
    + by intros [?|(c' & ? & _)].
    + intros _. apply fetchSecret_storeCalls.
Qed.

(** X6. When the store answers with a secret that is not empty, [getSecret]
    returns it and caches it with the time of the call, and then serves it
    from the cache, with no further store call, at every time less than
    [cacheExpiryMs] after that one. *)
Theorem fetched_secret_is_cached (this : SecretsManagerService)
    (secretName : string) (now : Z) (w : world) (s : string) :
  local_bypass this secretName = false ->
  (forall c, secretsCache w !! secretName = Some c ->
             (cacheExpiryMs config <= now - timestamp c)%Z) ->
  getSecretValue (length (storeCalls w)) secretName = StoreResponse (Some s) ->
  s <> "" ->
  let w1 := {| secretsCache :=
                 <[secretName := {| value := s; timestamp := now |}]>
                   (secretsCache w);
               storeCalls := (storeCalls w ++ [secretName])%list |} in
  getSecret this secretName now w = (Return s, w1)
  /\ forall later : Z,
       (later - now < cacheExpiryMs config)%Z ->
       getSecret this secretName later w1 = (Return s, w1).
Proof.
  intros Hb Hold Hreply Hne w1. split.
  - rewrite getSecret_miss by done. by apply fetchSecret_stores.
  - intros later Hlater.
    apply (getSecret_hit this secretName later w1
             {| value := s; timestamp := now |}); [done| |done].
    apply lookup_insert_eq.
Qed.

(** X7. A call of [getSecret] touches no entry of the cache but the one of
    the name requested, removes no entry, and changes nothing in the cache
    when it throws. *)
Theorem getSecret_touches_one_entry (this : SecretsManagerService)
    (secretName : string) (now : Z) (w : world) :
  (forall other, other <> secretName ->
     secretsCache (getSecret this secretName now w).2 !! other
     = secretsCache w !! other)
  /\ (is_Some (secretsCache w !! secretName) ->
      is_Some (secretsCache (getSecret this secretName now w).2 !! secretName))
  /\ (forall e, (getSecret this secretName now w).1 = Throw e ->
        secretsCache (getSecret this secretName now w).2 = secretsCache w).
Proof.
  split; [|split].
  - intros other Hne.
    destruct (getSecret_world this secretName now w) as [-> | ->]; [done|].
    destruct (fetchSecret_cache secretName now w) as [-> | (s & _ & ->)];
      [done|]. by rewrite lookup_insert_ne.
  - intros Hsome.
    destruct (getSecret_world this secretName now w) as [-> | ->]; [done|].
    destruct (fetchSecret_cache secretName now w) as [-> | (s & _ & ->)];
      [done|]. rewrite lookup_insert_eq. by eexists.
  - intros e. unfold getSecret.
    assert ((fetchSecret secretName now w).1 = Throw e ->
            secretsCache (fetchSecret secretName now w).2 = secretsCache w)
      as Hf.
    { unfold fetchSecret. by repeat case_match. }
    by repeat case_match.
Qed.

(** X8. In a world the process can reach, no cache entry holds an empty
    secret, and [getSecret] never returns one, wherever the secret comes
    from. *)
Theorem secrets_are_never_empty (w : world) :
  reachable w ->
  (forall n c, secretsCache w !! n = Some c -> value c <> "")
  /\ forall (secretName : string) (now : Z) (s : string) (w1 : world),
       getSecret new_SecretsManagerService secretName now w = (Return s, w1) ->
       s <> "".
Proof.
  intros Hw.
  assert (forall n c, secretsCache w !! n = Some c -> value c <> "") as Hinv.
  { induction Hw as [|w name now Hw IH]; [done|].
    intros n c.
    destruct (getSecret_world new_SecretsManagerService name now w)
      as [-> | ->]; [by apply IH|].
    destruct (fetchSecret_cache name now w) as [-> | (s & Hs & ->)];
      [by apply IH|].
    destruct (decide (name = n)) as [->|Hne].
    - rewrite lookup_insert_eq. by intros [= <-].
    - rewrite lookup_insert_ne by done. by apply IH. }
  split; [done|].
  intros secretName now s w1. unfold getSecret.
  destruct (local_bypass new_SecretsManagerService secretName) eqn:Hb.
  - intros [= <- _]. unfold local_bypass in Hb.
    apply andb_prop in Hb as [_ Hb].
    destruct (jwt_localSecret config) as [l|]; [|done]. simpl in *.
    by apply negb_true_iff, String.eqb_neq in Hb.
  - destruct (secretsCache w !! secretName) as [c|] eqn:Hc.
    + destruct (now - timestamp c <? cacheExpiryMs config)%Z.
      * intros [= <- _]. by apply (Hinv secretName).
      * by intros (_ & ? & _)%fetchSecret_reply.
    + by intros (_ & ? & _)%fetchSecret_reply.
Qed.

(** X9. In a world the process can reach, every cache entry holds what the
    store answered to one of the calls in the log, made for the name of the
    entry. *)
Theorem cached_values_come_from_the_store (w : world) :
  reachable w ->
  forall (n : string) (c : cache_entry),
    secretsCache w !! n = Some c ->
    exists i : nat,
      storeCalls w !! i = Some n
      /\ getSecretValue i n = StoreResponse (Some (value c)).
Proof.
  intros Hw. induction Hw as [|w name now Hw IH]; [done|].
  intros n c. unfold getSecret.
  assert (secretsCache (fetchSecret name now w).2 !! n = Some c ->
          exists i, storeCalls (fetchSecret name now w).2 !! i = Some n
                    /\ getSecretValue i n = StoreResponse (Some (value c)))
    as Hf.
  { rewrite fetchSecret_storeCalls.
    destruct (fetchSecret name now w) as [[s|e] w1] eqn:Hfetch.
    - apply fetchSecret_reply in Hfetch as (Hreply & _ & ->). simpl.
      destruct (decide (name = n)) as [->|Hne].
      + rewrite lookup_insert_eq. intros [= <-]. simpl.
        exists (length (storeCalls w)). split; [|done].
        by rewrite lookup_app_r, Nat.sub_diag.
      + rewrite lookup_insert_ne by done. intros Hc.
        destruct (IH n c Hc) as (i & Hi & Hrep). exists i. split; [|done].
        by apply lookup_app_l_Some.
    - simpl. assert (secretsCache w1 = secretsCache w) as ->.
      { unfold fetchSecret in Hfetch.
        repeat case_match; inversion Hfetch; by subst. }
      intros Hc. destruct (IH n c Hc) as (i & Hi & Hrep).
      exists i. split; [|done]. by apply lookup_app_l_Some. }
  repeat case_match; simpl; auto.
Qed.

(** ** Further properties: the validator and the handler *)

(** [validateToken] in one equation: the state is that of the resolver, the
    outcome that of the first step that fails. *)
Lemma validateToken_eq (this : TokenValidatorService) (token : string)
    (sourceIp : option string) (t : instants) (w : world) :
  validateToken this token sourceIp t w
  = (Return
       match (getJwtSecret (secretsManager this) (dateNow t) w).1 with
       | Throw e => classify_error e
       | Return secret =>
           match jwt_verify token secret verify_options (verifyClock t) with
           | Throw e => classify_error e
           | Return decoded => check_claims decoded sourceIp
           end
       end,
     (getJwtSecret (secretsManager this) (dateNow t) w).2).
Proof.
  unfold validateToken.
  destruct (getJwtSecret (secretsManager this) (dateNow t) w)
    as [[secret|e] w']; simpl; [|done].
  by destruct (jwt_verify token secret verify_options (verifyClock t)).
Qed.

Lemma check_claims_cases (decoded : list (string * jsval))
    (sourceIp : option string) :
  (exists x rs y ss,
     truthy (get_prop decoded "sub") = true
     /\ get_prop decoded "roles" = JArr (x :: rs)
     /\ get_prop decoded "scopes" = JArr (y :: ss)
     /\ truthy (get_prop decoded "ip") && truthy_str sourceIp
          && strict_ne (get_prop decoded "ip") sourceIp = false
     /\ check_claims decoded sourceIp
        = Valid (get_prop decoded "sub") (JArr (x :: rs)) (JArr (y :: ss)))
  \/ exists reason,
       check_claims decoded sourceIp = Invalid reason
       /\ In reason fixed_reasons.
Proof.
  unfold check_claims, fixed_reasons.
  destruct (truthy (get_prop decoded "sub")) eqn:Hsub; simpl;
    [|right; eexists; split; [done|simpl; tauto]].
  destruct (get_prop decoded "roles")
    as [| |b|n|s|[|x rs]|props|text] eqn:Hroles;
    simpl; rewrite ?orb_true_r;
    try (right; eexists; split; [done|simpl; tauto]).
  destruct (get_prop decoded "scopes")
    as [| |b|n|s|[|y ss]|props|text] eqn:Hscopes;
    simpl; rewrite ?orb_true_r;
    try (right; eexists; split; [done|simpl; tauto]).
  destruct (truthy (get_prop decoded "ip") && truthy_str sourceIp
            && strict_ne (get_prop decoded "ip") sourceIp) eqn:Hip.
  - right; eexists; split; [done|simpl; tauto].
  - left. by exists x, rs, y, ss.
Qed.

Lemma classify_error_cases (e : js_error) :
  exists reason, classify_error e = Invalid reason
    /\ (In reason fixed_reasons \/ exists m, reason = "Invalid token: " +:+ m).
Proof.
  unfold classify_error, fixed_reasons.
  repeat case_match; eexists; (split; [done|]); simpl; eauto 10.
Qed.

Lemma classify_error_isValid (e : js_error) :
  isValid (classify_error e) = false.
Proof. by destruct (classify_error_Invalid e) as [reason ->]. Qed.

(** The two shapes of an outcome. *)
Lemma validateToken_shape (this : TokenValidatorService) (token : string)
    (sourceIp : option string) (t : instants) (w : world) :
  exists r, (validateToken this token sourceIp t w).1 = Return r
    /\ ((exists sub x rs y ss, r = Valid sub (JArr (x :: rs)) (JArr (y :: ss)))
        \/ exists reason, r = Invalid reason).
Proof.
  rewrite validateToken_eq. eexists. split; [done|].
  destruct ((getJwtSecret (secretsManager this) (dateNow t) w).1)
    as [secret|e]; [|right; apply classify_error_Invalid].
  destruct (jwt_verify token secret verify_options (verifyClock t))
    as [decoded|e]; [|right; apply classify_error_Invalid].
  destruct (check_claims_cases decoded sourceIp)
    as [(x & rs & y & ss & _ & _ & _ & _ & ->) | (reason & -> & _)].
  - left. by eexists _, x, rs, y, ss.
  - right. by exists reason.
Qed.

(** X10. [validateToken] never throws, changes the world only as the
    resolver does, and its outcome has one of two shapes: [Valid], with a
    truthy subject and two arrays that are not empty, or [Invalid], with one
    of seven fixed reasons or with "Invalid token: " before the message of
    jsonwebtoken. *)
Theorem validation_outcomes (this : TokenValidatorService) (token : string)
    (sourceIp : option string) (t : instants) (w : world) :
  exists r : TokenValidationResult,
    validateToken this token sourceIp t w
    = (Return r, (getJwtSecret (secretsManager this) (dateNow t) w).2)
    /\ ((exists sub x rs y ss,
           r = Valid sub (JArr (x :: rs)) (JArr (y :: ss))
           /\ truthy sub = true)
        \/ (exists reason,
              r = Invalid reason
              /\ (In reason fixed_reasons
                  \/ exists m, reason = "Invalid token: " +:+ m))).
Proof.
  rewrite validateToken_eq. eexists. split; [done|].
  destruct ((getJwtSecret (secretsManager this) (dateNow t) w).1)
    as [secret|e]; [|right; apply classify_error_cases].
  destruct (jwt_verify token secret verify_options (verifyClock t))
    as [decoded|e]; [|right; apply classify_error_cases].
  destruct (check_claims_cases decoded sourceIp)
    as [(x & rs & y & ss & Hsub & _ & _ & _ & ->) | (reason & -> & Hin)].
  - left. by eexists _, x, rs, y, ss.
  - right. exists reason. split; [done|by left].
Qed.

(** X11. The handler allows only what was verified: behind every [Allow]
    there is a token extracted from the header, a secret the resolver gave,
    and a payload that [jwt.verify] accepted under that secret, with a truthy
    subject, roles and scopes that are arrays with an element; the principal
    is that subject, and the statement is for the method asked for, never
    wider. *)
Theorem allow_requires_a_verified_token
    (event : APIGatewayTokenAuthorizerEvent) (t : instants) (w : world)
    (d : APIGatewayAuthorizerResult) :
  (handler event t w).1 = Return d ->
  effect_of d = Some Allow ->
  exists (token secret : string) (decoded : list (string * jsval))
         (x y : jsval) (rs ss : list jsval),
    extractToken (authorizationToken event) = Some token
    /\ token <> ""
    /\ (getJwtSecret (secretsManager tokenValidator) (dateNow t) w).1
       = Return secret
    /\ jwt_verify token secret verify_options (verifyClock t) = Return decoded
    /\ truthy (get_prop decoded "sub") = true
    /\ get_prop decoded "roles" = JArr (x :: rs)
    /\ get_prop decoded "scopes" = JArr (y :: ss)
    /\ principalId d = get_prop decoded "sub"
    /\ Statement (policyDocument d)
       = [ {| Action := "execute-api:Invoke";
              Effect := Allow;
              Resource := methodArn event |} ].
Proof.
  rewrite handler_caught. cbn [fst].
  destruct (extractToken (authorizationToken event)) as [token|] eqn:Htoken;
    cycle 1.
  { rewrite handler_try_no_token by (by rewrite Htoken).
    by intros [= <-]. }
  destruct (String.eqb_spec token "") as [->|Hne].
  { rewrite handler_try_no_token by (by rewrite Htoken).
    by intros [= <-]. }
  rewrite (handler_try_token _ _ _ _ Htoken Hne), validateToken_eq.
  cbn [fst snd].
  destruct ((getJwtSecret (secretsManager tokenValidator) (dateNow t) w).1)
    as [secret|e]; cycle 1.
  { destruct (classify_error_Invalid e) as [reason ->]. by intros [= <-]. }
  destruct (jwt_verify token secret verify_options (verifyClock t))
    as [decoded|e] eqn:Hverify; cycle 1.
  { destruct (classify_error_Invalid e) as [reason ->]. by intros [= <-]. }
  destruct (check_claims_cases decoded None)
    as [(x & rs & y & ss & Hsub & Hroles & Hscopes & _ & ->)
       | (reason & -> & _)]; [|by intros [= <-]].
  rewrite decision_for_Valid.
  destruct (Array_join (x :: rs)) as [rt|]; [|by intros [= <-]].
  destruct (Array_join (y :: ss)) as [st|]; [|by intros [= <-]].
  intros [= <-] _.
  by exists token, secret, decoded, x, y, rs, ss.
Qed.

(** X12. After a validation that found the token valid, the handler allows
    the subject when [join] can convert the roles and the scopes to text,
    which are then joined as [join] does. It cannot when a role or a scope is
    an object with an own property [toString], or an array that holds such an
    object, itself or in an array inside it: joining then throws a
    [TypeError] inside the [try] block and the answer is the deny-all
    decision instead. An own [toString] inside a plain object does no harm:
    the object joins to "[object Object]". The condition [safe_numbers] is on
    the form of the value: a number that is no safe integer is written as a
    [JNumText]. *)
Theorem valid_outcome_is_allowed_when_convertible
    (event : APIGatewayTokenAuthorizerEvent) (t : instants) (w w' : world)
    (token : string) (sub : jsval) (rs ss : list jsval) :
  extractToken (authorizationToken event) = Some token ->
  token <> "" ->
  validateToken tokenValidator token None t w
    = (Return (Valid sub (JArr rs) (JArr ss)), w') ->
  (convertible (JArr rs) && convertible (JArr ss) = true ->
   safe_numbers (JArr rs) && safe_numbers (JArr ss) = true ->
   exists roles_text scopes_text,
     Array_join rs = Return roles_text
     /\ Array_join ss = Return scopes_text
     /\ handler event t w
        = (Return (generatePolicy sub Allow (methodArn event)
                     (Some [ ("userId", sub);
                             ("roles", JStr roles_text);
                             ("scopes", JStr scopes_text);
                             ("userIdHeader", sub);
                             ("authenticated", JStr "true");
                             ("timestamp", JStr (isoNow t)) ])), w'))
  /\ (convertible (JArr rs) && convertible (JArr ss) = false ->
      (handler_try event t w).1
      = Throw (TypeError "Cannot convert object to primitive value")
      /\ handler event t w = (Return getDenyAllPolicy, w')).
Proof.
  intros Htoken Hne Hvalid. split.
  - intros [Hrs Hss]%andb_prop _.
    destruct (Array_join_cases rs) as [[_ [rt Hrt]] | [? _]]; [|congruence].
    destruct (Array_join_cases ss) as [[_ [st Hst]] | [? _]]; [|congruence].
    exists rt, st. split; [done|]. split; [done|].
    by apply (handler_allows event t w w' token sub rs ss).
  - intros Hno.
    assert ((handler_try event t w).1
            = Throw (TypeError "Cannot convert object to primitive value")
            /\ (handler_try event t w).2 = w') as [Hthrow Hw].
    { rewrite (handler_try_token _ _ _ _ Htoken Hne), Hvalid.
      cbn [fst snd]. rewrite decision_for_Valid. split; [|done].
      destruct (Array_join_cases rs) as [[Hrs [rt ->]] | [_ ->]]; [|done].
      destruct (Array_join_cases ss) as [[Hss [st ->]] | [_ ->]]; [|done].
      by rewrite Hrs, Hss in Hno. }
    split; [done|]. by rewrite handler_caught, Hthrow, Hw.
Qed.

(** X13. The [try] block of the handler throws in one way only: with the
    [TypeError] of a role or scope that cannot be converted, after a
    validation that found the token valid. The resolver, the verification
    and the checks on the payload never bring an exception to it. *)
Theorem handler_try_throws_only_in_join
    (event : APIGatewayTokenAuthorizerEvent) (t : instants) (w : world)
    (e : js_error) :
  (handler_try event t w).1 = Throw e ->
  e = TypeError "Cannot convert object to primitive value"
  /\ exists (token : string) (sub : jsval) (rs ss : list jsval),
       extractToken (authorizationToken event) = Some token
       /\ (validateToken tokenValidator token None t w).1
          = Return (Valid sub (JArr rs) (JArr ss))
       /\ convertible (JArr rs) && convertible (JArr ss) = false.
Proof.
  destruct (extractToken (authorizationToken event)) as [token|] eqn:Htoken;
    cycle 1.
  { by rewrite handler_try_no_token by (by rewrite Htoken). }
  destruct (String.eqb_spec token "") as [->|Hne].
  { by rewrite handler_try_no_token by (by rewrite Htoken). }
  rewrite (handler_try_token _ _ _ _ Htoken Hne). cbn [fst].
  destruct (validateToken_shape tokenValidator token None t w)
    as (r & Hr & [(sub & x & rs & y & ss & ->) | (reason & ->)]);
    rewrite Hr; [|done].
  rewrite decision_for_Valid.
  destruct (Array_join_cases (x :: rs)) as [[Hrs [rt ->]] | [Hrs ->]].
  - destruct (Array_join_cases (y :: ss)) as [[Hss [st ->]] | [Hss ->]];
      [done|].
    intros [= <-]. split; [done|].
    exists token, sub, (x :: rs), (y :: ss). by rewrite Hss, andb_false_r.
  - intros [= <-]. split; [done|].
    exists token, sub, (x :: rs), (y :: ss). by rewrite Hrs.
Qed.

(** X14. A token that was extracted and that fails the validation, whatever
    the step that fails (the resolver, the verification or a check on the
    payload), is denied on the method asked for, for the principal
    "anonymous" and without context: the reason stays in the log. *)
Theorem invalid_token_is_denied_on_the_method
    (event : APIGatewayTokenAuthorizerEvent) (t : instants) (w : world)
    (token : string) (r : TokenValidationResult) :
  extractToken (authorizationToken event) = Some token ->
  token <> "" ->
  (validateToken tokenValidator token None t w).1 = Return r ->
  isValid r = false ->
  handler event t w
  = (Return {| principalId := JStr "anonymous";
               policyDocument :=
                 {| Version := "2012-10-17";
                    Statement := [ {| Action := "execute-api:Invoke";
                                      Effect := Deny;
                                      Resource := methodArn event |} ] |};
               context := None |},
     (getJwtSecret (secretsManager tokenValidator) (dateNow t) w).2).
Proof.
  intros Htoken Hne Hr Hinvalid.
  rewrite handler_caught, (handler_try_token _ _ _ _ Htoken Hne), Hr.
  rewrite validateToken_eq. cbn [fst snd]. unfold decision_for. simpl.
  by rewrite Hinvalid.
Qed.

(** X15. A decision that denies names no one: its principal is "anonymous",
    it has no context, and its resource is the method asked for or "*". *)
Theorem deny_is_anonymous (event : APIGatewayTokenAuthorizerEvent)
    (t : instants) (w : world) (d : APIGatewayAuthorizerResult) :
  (handler event t w).1 = Return d ->
  effect_of d = Some Deny ->
  principalId d = JStr "anonymous"
  /\ context d = None
  /\ exists resource,
       Statement (policyDocument d)
       = [ {| Action := "execute-api:Invoke";
              Effect := Deny;
              Resource := resource |} ]
       /\ (resource = "*" \/ resource = methodArn event).
Proof.
  intros Hd Heff.
  destruct (handler_decisions event t w) as (d' & Hd' & Hcases & _).
  rewrite Hd in Hd'. injection Hd' as <-.
  destruct Hcases as [->|[->|(sub & rt & st & ->)]]; [| |done].
  - split; [done|]. split; [done|]. exists "*". auto.
  - split; [done|]. split; [done|]. exists (methodArn event). auto.
Qed.

(** X16. One invocation of the handler changes the world only as one call of
    [getSecret] for the JWT secret does: it asks the store at most once, and
    it takes a world the process can reach to another. *)
Theorem handler_world (event : APIGatewayTokenAuthorizerEvent)
    (t : instants) (w : world) :
  ((handler event t w).2 = w
   \/ (handler event t w).2
      = (getSecret new_SecretsManagerService (jwt_secretName config)
           (dateNow t) w).2)
  /\ length (storeCalls (handler event t w).2) <= S (length (storeCalls w))
  /\ (reachable w -> reachable (handler event t w).2).
Proof.
  assert ((handler event t w).2 = w
          \/ (handler event t w).2
             = (getSecret new_SecretsManagerService (jwt_secretName config)
                  (dateNow t) w).2) as Hcases.
  { rewrite handler_caught. cbn [snd]. unfold handler_try.
    destruct (negb (truthy_str (extractToken (authorizationToken event))));
      [by left|].
    rewrite validateToken_eq. by right. }
  split; [done|]. destruct Hcases as [-> | ->].
  - split; [lia|done].
  - split; [apply getSecret_storeCalls|]. apply reachable_getSecret.
Qed.

(** X17. Outside production and with a local secret set, the handler needs
    neither the cache nor the store: every token is verified under the local
    secret, and the world stays as it is. *)
Theorem local_mode_needs_no_store (s : string) (token : string)
    (sourceIp : option string) (t : instants) (w : world) :
  NODE_ENV <> Some "production" ->
  jwt_localSecret config = Some s ->
  s <> "" ->
  validateToken tokenValidator token sourceIp t w
  = (Return match jwt_verify token s verify_options (verifyClock t) with
            | Throw e => classify_error e
            | Return decoded => check_claims decoded sourceIp
            end, w)
  /\ forall event : APIGatewayTokenAuthorizerEvent,
       (handler event t w).2 = w.
Proof.
  intros Henv Hs Hne.
  assert (getJwtSecret (secretsManager tokenValidator) (dateNow t) w
          = (Return s, w)) as Hget.
  { unfold getJwtSecret. simpl.
    rewrite getSecret_bypass by (by apply (local_bypass_on s)).
    by rewrite Hs. }
  split.
  - by rewrite validateToken_eq, Hget.
  - intros event. rewrite handler_caught. cbn [snd]. unfold handler_try.
    destruct (negb (truthy_str (extractToken (authorizationToken event))));
      [done|].
    by rewrite validateToken_eq, Hget.
Qed.

(** ** Further properties: the joined roles *)

Lemma comma_first (a b r : string) :
  comma_free a = true -> a <> b +:+ String "," r.
Proof.
  revert a. induction b as [|c b IH]; intros [|c' a] Ha; try done.
  - intros [= -> _]. done.
  - intros [= -> E]. apply andb_prop in Ha as [_ Ha]. by apply (IH a).
Qed.

Lemma comma_split (a b r1 r2 : string) :
  comma_free a = true -> comma_free b = true ->
  a +:+ String "," r1 = b +:+ String "," r2 ->
  a = b /\ r1 = r2.
Proof.
  revert b. induction a as [|c a IH]; intros [|c' b] Ha Hb; simpl.
  - by intros [= ->].
  - intros [= <- _]. done.
  - intros [= -> _]. done.
  - intros [= -> E].
    apply andb_prop in Ha as [_ Ha]. apply andb_prop in Hb as [_ Hb].
    destruct (IH b Ha Hb E) as [-> ->]. done.
Qed.

Lemma concat_cons2 (a b : string) (l : list string) :
  String.concat "," (a :: b :: l)
  = a +:+ String "," (String.concat "," (b :: l)).
Proof. reflexivity. Qed.

(** X18. The text that [generateAllowPolicy] puts under [roles] (and under
    [scopes]) determines the list it was joined from, as long as the list is
    not empty and no name in it has a comma: two such lists with the same
    text are the same list. *)
Theorem joined_names_determine_the_names (names1 names2 : list string) :
  names1 <> [] -> names2 <> [] ->
  Forall (fun n => comma_free n = true) names1 ->
  Forall (fun n => comma_free n = true) names2 ->
  Array_join (JStr <$> names1) = Array_join (JStr <$> names2) ->
  names1 = names2.
Proof.
  rewrite !Array_join_strings. intros Hne1 Hne2 Hfree1 Hfree2 [= E].
  revert names2 Hne1 Hne2 Hfree2 E.
  induction Hfree1 as [|a l1 Ha Hl1 IH]; [done|].
  intros [|b l2] _ Hne2 Hfree2; [done|].
  apply Forall_cons_1 in Hfree2 as [Hb Hl2].
  destruct l1 as [|a' l1], l2 as [|b' l2].
  - by intros [= ->].
  - rewrite concat_cons2. intros E.
    by destruct (comma_first a b (String.concat "," (b' :: l2)) Ha).
  - rewrite concat_cons2. intros E.
    by destruct (comma_first b a (String.concat "," (a' :: l1)) Hb).
  - rewrite !concat_cons2. intros E.
    destruct (comma_split _ _ _ _ Ha Hb E) as [-> E'].
    f_equal. by apply IH.
Qed.

(** ** Further properties: the configuration *)

Lemma or_default_not_empty (v : option string) (d : string) :
  d <> "" -> or_default v d <> "".
Proof.
  intros Hd. unfold or_default. destruct v as [s|]; simpl; [|done].
  by destruct (String.eqb_spec s "").
Qed.

Lemma or_default_unset (v : option string) (d : string) :
  v = None \/ v = Some "" -> or_default v d = d.
Proof. by intros [-> | ->]. Qed.

(** X19. Whatever the environment holds, also when a number in it does not
    parse, the secret name, the issuer, the audience, the algorithm and the
    region of the configuration are not empty: a variable that is unset or
    empty gives way to the default, so that [jwt.verify] is always asked to
    check an issuer and an audience. The numbers have their defaults under
    the same condition. *)
Theorem settings_are_never_empty (env : environment) :
  let unset (k : string) := env k = None \/ env k = Some "" in
  let c := load_config env in
  (loaded_jwt_secretName c <> "" /\ loaded_jwt_issuer c <> ""
   /\ loaded_jwt_audience c <> "" /\ loaded_jwt_algorithm c <> ""
   /\ loaded_aws_region c <> "")
  /\ (unset "JWT_SECRET_NAME" ->
      loaded_jwt_secretName c = "magento/jwt/secret")
  /\ (unset "JWT_ISSUER" -> loaded_jwt_issuer c = "magento")
  /\ (unset "JWT_AUDIENCE" -> loaded_jwt_audience c = "api-gateway")
  /\ (unset "JWT_ALGORITHM" -> loaded_jwt_algorithm c = "HS256")
  /\ (unset "AWS_REGION" -> loaded_aws_region c = "us-east-1")
  /\ (unset "JWT_EXPIRES_IN" -> loaded_jwt_expiresIn c = Some 3600%Z)
  /\ (unset "SECRETS_CACHE_EXPIRY_MS" ->
      loaded_cacheExpiryMs c = Some 300000%Z)
  /\ (unset "AUTHORIZER_CACHE_TTL" ->
      loaded_authorizer_cacheTtl c = Some 300%Z)
  /\ forall cfg : Config,
       config_of_env env = Some cfg ->
       jwt_secretName cfg = loaded_jwt_secretName c
       /\ jwt_issuer cfg = loaded_jwt_issuer c
       /\ jwt_audience cfg = loaded_jwt_audience c
       /\ jwt_algorithm cfg = loaded_jwt_algorithm c
       /\ jwt_localSecret cfg = loaded_jwt_localSecret c
       /\ Some (cacheExpiryMs cfg) = loaded_cacheExpiryMs c.
Proof.
  intros unset c. subst unset c. unfold load_config. simpl.
  split; [repeat split; by apply or_default_not_empty|].
  do 5 (split; [apply or_default_unset|]).
  do 3 (split; [intros Hunset; by rewrite (or_default_unset _ _ Hunset)|]).
  intros cfg. unfold config_of_env, load_config. simpl.
  destruct (parseInt (or_default (env "SECRETS_CACHE_EXPIRY_MS") "300000"))
    as [expiry|]; [|done].
  simpl. by intros [= <-].
Qed.

Lemma leading_digits_app (s rest : string) (acc : option Z) :
  starts_with_digit rest = false ->
  leading_digits (s +:+ rest) acc = leading_digits s acc.
Proof.
  intros Hrest. revert acc. induction s as [|c s IH]; intros acc.
  - destruct rest as [|c rest]; [done|]. simpl in *. by rewrite Hrest.
  - change (leading_digits (String c (s +:+ rest)) acc
            = leading_digits (String c s) acc).
    simpl. by destruct (is_digit c).
Qed.

Lemma trim_start_app (s rest : string) :
  trim_start s <> "" -> trim_start (s +:+ rest) = trim_start s +:+ rest.
Proof.
  induction s as [|c s IH]; [done|]. intros Hne.
  change (trim_start (String c (s +:+ rest))
          = trim_start (String c s) +:+ rest).
  simpl in *. destruct (is_white_space c); [by apply IH|done].
Qed.

Lemma parseInt_app (s rest : string) (n : Z) :
  parseInt s = Some n ->
  starts_with_digit rest = false ->
  parseInt (s +:+ rest) = Some n.
Proof.
  unfold parseInt. intros Hs Hrest.
  destruct (trim_start s) as [|c s'] eqn:Htrim; [done|].
  rewrite trim_start_app, Htrim by (by rewrite Htrim).
  change (String c s' +:+ rest) with (String c (s' +:+ rest)).
  rewrite <- Hs.
  assert (leading_digits (String c (s' +:+ rest)) None
          = leading_digits (String c s') None) as Hc
    by apply (leading_digits_app (String c s')), Hrest.
  destruct (Ascii.eqb_spec c "-") as [->|Hm];
    [by rewrite leading_digits_app|].
  destruct (Ascii.eqb_spec c "+") as [->|Hp];
    [by rewrite leading_digits_app|].
  destruct c as [[] [] [] [] [] [] [] []]; try done.
Qed.

(** X20. The cache expiry is read with [parseInt], which stops at the first
    character that is not a digit: text added after a setting that is
    accepted changes nothing, so that a value written with a unit, as in
    "300000ms" or "5min", counts as its leading number of milliseconds. *)
Theorem expiry_ignores_trailing_text (env env' : environment)
    (v rest : string) (c : Config) :
  env "SECRETS_CACHE_EXPIRY_MS" = Some v ->
  v <> "" ->
  starts_with_digit rest = false ->
  env' "SECRETS_CACHE_EXPIRY_MS" = Some (v +:+ rest) ->
  (forall k, k <> "SECRETS_CACHE_EXPIRY_MS" -> env' k = env k) ->
  config_of_env env = Some c ->
  config_of_env env' = Some c.
Proof.
  intros Hv Hne Hrest Hv' Hsame. unfold config_of_env, load_config.
  cbn [loaded_jwt_secretName loaded_jwt_issuer loaded_jwt_audience
       loaded_jwt_algorithm loaded_jwt_localSecret loaded_cacheExpiryMs].
  rewrite Hv, Hv', !Hsame by done.
  assert (or_default (Some v) "300000" = v) as ->.
  { unfold or_default. simpl. by apply String.eqb_neq in Hne as ->. }
  assert (or_default (Some (v +:+ rest)) "300000" = v +:+ rest) as ->.
  { unfold or_default. simpl. destruct v; [done|]. done. }
  destruct (parseInt v) as [n|] eqn:Hn; [|done].
  by rewrite (parseInt_app v rest n Hn Hrest).
Qed.

(** ** Further properties: loading the module *)

(** X21. Loading the module leaves a world the process can reach, with at
    most one store call. Unless [NODE_ENV] is [local], nothing happens; under
    [local] the handler runs on the mock event, which asks the store for the
    JWT secret once, or not at all when a local secret is set. *)
Theorem module_load (t : instants) :
  reachable (on_load t)
  /\ (NODE_ENV <> Some "local" -> on_load t = initial_world)
  /\ (NODE_ENV = Some "local" ->
      if truthy_str (jwt_localSecret config)
      then on_load t = initial_world
      else storeCalls (on_load t) = [jwt_secretName config]).
Proof.
  unfold on_load. split; [|split].
  - case_bool_decide; [|apply reachable_initial].
    rewrite handler_caught. cbn [snd].
    rewrite (handler_try_token mockEvent t initial_world
               "eyJhbGciOiJIUzI1NiIsInR5cCI6IkpXVCJ9..." eq_refl)
      by done.
    rewrite validateToken_eq. cbn [snd].
    apply reachable_getSecret, reachable_initial.
  - intros Hne. by rewrite bool_decide_eq_false_2.
  - intros Hlocal. rewrite bool_decide_eq_true_2 by done.
    rewrite handler_caught. cbn [snd].
    rewrite (handler_try_token mockEvent t initial_world
               "eyJhbGciOiJIUzI1NiIsInR5cCI6IkpXVCJ9..." eq_refl)
      by done.
    rewrite validateToken_eq. cbn [snd]. unfold getJwtSecret, getSecret.
    unfold local_bypass. simpl.
    rewrite bool_decide_eq_false_2 by (by rewrite Hlocal).
    rewrite String.eqb_refl. simpl.
    destruct (truthy_str (jwt_localSecret config)); simpl; [done|].
    by rewrite lookup_empty, fetchSecret_storeCalls.
Qed.

(** ** Further properties: the origin binding *)

(** X22. "IP address mismatch" is the answer of the last check only: when
    [validateToken] gives it, the key was resolved, the token verified, its
    subject, roles and scopes passed their checks, the payload carries a
    truthy [ip], and the caller gave an origin that is not empty and is not
    that [ip]. *)
Theorem mismatch_only_after_all_checks (token : string)
    (sourceIp : option string) (t : instants) (w : world) :
  (validateToken tokenValidator token sourceIp t w).1
    = Return (Invalid "IP address mismatch") ->
  exists (secret origin : string) (decoded : list (string * jsval))
         (x y : jsval) (rs ss : list jsval),
    (getJwtSecret (secretsManager tokenValidator) (dateNow t) w).1
      = Return secret
    /\ jwt_verify token secret verify_options (verifyClock t) = Return decoded
    /\ truthy (get_prop decoded "sub") = true
    /\ get_prop decoded "roles" = JArr (x :: rs)
    /\ get_prop decoded "scopes" = JArr (y :: ss)
    /\ truthy (get_prop decoded "ip") = true
    /\ sourceIp = Some origin
    /\ origin <> ""
    /\ get_prop decoded "ip" <> JStr origin.
Proof.
  rewrite validateToken_eq. cbn [fst].
  destruct ((getJwtSecret (secretsManager tokenValidator) (dateNow t) w).1)
    as [secret|e]; cycle 1.
  { intros [= H]. destruct (classify_error_not_mismatch e). by rewrite H. }
  destruct (jwt_verify token secret verify_options (verifyClock t))
    as [decoded|e] eqn:Hverify; cycle 1.
  { intros [= H]. destruct (classify_error_not_mismatch e). by rewrite H. }
  intros [= H]. unfold check_claims in H.
  destruct (truthy (get_prop decoded "sub")) eqn:Hsub; [|done]. simpl in H.
  destruct (get_prop decoded "roles")
    as [| |b|n|s|[|x rs]|props|text] eqn:Hroles;
    simpl in H; rewrite ?orb_true_r in H; try done.
  destruct (get_prop decoded "scopes")
    as [| |b|n|s|[|y ss]|props|text] eqn:Hscopes;
    simpl in H; rewrite ?orb_true_r in H; try done.
  destruct (truthy (get_prop decoded "ip")) eqn:Hip; [|done].
  destruct sourceIp as [origin|]; [|done]. simpl in H.
  destruct (String.eqb_spec origin "") as [|Hne]; [done|]. simpl in H.
  exists secret, origin, decoded, x, y, rs, ss.
  repeat (split; [done|]). intros Heq. rewrite Heq in H. simpl in H.
  by rewrite String.eqb_refl in H.
Qed.

End Authorizer.

(** ** The properties on the concrete process *)

(** The token of alice, whose roles are strings, and the token whose only
    role is the number 42 are both allowed. *)
Lemma valid_token_is_allowed_witness :
  handler default_config (Some "production") sample_store sample_verify
    (sample_event (Some "Bearer alice")) sample_instants initial_world
  = (Return
       {| principalId := JStr "alice";
          policyDocument :=
            {| Version := "2012-10-17";
               Statement :=
                 [ {| Action := "execute-api:Invoke";
                      Effect := Allow;
                      Resource := methodArn (sample_event (Some "Bearer alice")) |} ] |};
          context :=
            Some [ ("userId", JStr "alice");
                   ("roles", JStr "admin,editor");
                   ("scopes", JStr "read,write");
                   ("userIdHeader", JStr "alice");
                   ("authenticated", JStr "true");
                   ("timestamp", JStr "2023-11-14T22:15:00.000Z") ] |},
     world_after_fetch 1700000100000)
  /\ handler default_config (Some "production") sample_store sample_verify
       (sample_event (Some "Bearer numeric")) sample_instants initial_world
     = (Return
          {| principalId := JStr "carol";
             policyDocument :=
               {| Version := "2012-10-17";
                  Statement :=
                    [ {| Action := "execute-api:Invoke";
                         Effect := Allow;
                         Resource :=
                           methodArn (sample_event (Some "Bearer numeric")) |} ] |};
             context :=
               Some [ ("userId", JStr "carol");
                      ("roles", JStr "42");
                      ("scopes", JStr "read,write");
                      ("userIdHeader", JStr "carol");
                      ("authenticated", JStr "true");
                      ("timestamp", JStr "2023-11-14T22:15:00.000Z") ] |},
        world_after_fetch 1700000100000).
Proof.
  split.
  - destruct (proj2 (valid_token_is_allowed default_config (Some "production")
                sample_store sample_verify "alice" None sample_instants
                initial_world (world_after_fetch 1700000100000) "s3cret"
                (sample_claims (JStr "alice") [JStr "admin"; JStr "editor"])
                (JStr "alice") [JStr "admin"; JStr "editor"]
                [JStr "read"; JStr "write"]
                eq_refl eq_refl eq_refl eq_refl eq_refl
                ltac:(discriminate) eq_refl ltac:(discriminate) eq_refl)
              (sample_event (Some "Bearer alice")) eq_refl
              ltac:(discriminate) eq_refl eq_refl eq_refl eq_refl)
      as (roles_text & scopes_text & _ & _ & Hroles & Hscopes & Hhandler).
    rewrite Hhandler, (Hroles ["admin"; "editor"] eq_refl),
      (Hscopes ["read"; "write"] eq_refl).
    reflexivity.
  - destruct (proj2 (valid_token_is_allowed default_config (Some "production")
                sample_store sample_verify "numeric" None sample_instants
                initial_world (world_after_fetch 1700000100000) "s3cret"
                (sample_claims (JStr "carol") [JNum 42])
                (JStr "carol") [JNum 42] [JStr "read"; JStr "write"]
                eq_refl eq_refl eq_refl eq_refl eq_refl
                ltac:(discriminate) eq_refl ltac:(discriminate) eq_refl)
              (sample_event (Some "Bearer numeric")) eq_refl
              ltac:(discriminate) eq_refl eq_refl eq_refl eq_refl)
      as (roles_text & scopes_text & Hjr & Hjs & _ & _ & Hhandler).
    rewrite Hhandler. injection Hjr as <-. injection Hjs as <-.
    reflexivity.
Defined.

(** The token whose role has an own property [toString] meets every
    condition put on the token: it verifies under the key, its subject is
    truthy, its roles and scopes are arrays that are not empty, it carries no
    IP. [validateToken] finds it valid, yet the decision is not [Allow]:
    joining the roles throws, and the handler answers with the deny-all
    decision. *)
Lemma valid_token_counterexample :
  let decoded := sample_claims (JStr "dave") [JObj [("toString", JNum 1)]] in
  getJwtSecret default_config sample_store
    (secretsManager (tokenValidator default_config (Some "production")))
    (dateNow sample_instants) initial_world
  = (Return "s3cret", world_after_fetch 1700000100000)
  /\ sample_verify "shadowed" "s3cret" (verify_options default_config)
       (verifyClock sample_instants) = Return decoded
  /\ truthy (get_prop decoded "sub") = true
  /\ get_prop decoded "roles" = JArr [JObj [("toString", JNum 1)]]
  /\ get_prop decoded "scopes" = JArr [JStr "read"; JStr "write"]
  /\ get_prop decoded "ip" = JUndefined
  /\ validateToken default_config sample_store sample_verify
       (tokenValidator default_config (Some "production")) "shadowed" None
       sample_instants initial_world
     = (Return (Valid (JStr "dave") (JArr [JObj [("toString", JNum 1)]])
                  (JArr [JStr "read"; JStr "write"])),
        world_after_fetch 1700000100000)
  /\ handler default_config (Some "production") sample_store sample_verify
       (sample_event (Some "Bearer shadowed")) sample_instants initial_world
     = (Return getDenyAllPolicy, world_after_fetch 1700000100000)
  /\ effect_of getDenyAllPolicy = Some Deny.
Proof. repeat split; reflexivity. Qed.

(** The [try] block throws on the token whose role shadows [toString], and
    the handler turns the exception into the deny-all decision. *)
Lemma handler_never_throws_witness :
  (handler_try default_config (Some "production") sample_store sample_verify
     (sample_event (Some "Bearer shadowed")) sample_instants initial_world).1
  = Throw (TypeError "Cannot convert object to primitive value")
  /\ exists d,
       (handler default_config (Some "production") sample_store sample_verify
          (sample_event (Some "Bearer shadowed")) sample_instants
          initial_world).1 = Return d
       /\ well_formed d /\ d = getDenyAllPolicy.
Proof.
  split; [reflexivity|].
  destruct (handler_never_throws default_config (Some "production")
              sample_store sample_verify
              (sample_event (Some "Bearer shadowed")) sample_instants
              initial_world) as (d & Hd & Hwf & Hthrow).
  exists d. split; [exact Hd|]. split; [exact Hwf|].
  exact (Hthrow _ eq_refl).
Defined.

Lemma no_Bearer_in_Basic : ~ Bearer_pattern "Basic YWxpY2U6c2VjcmV0".
Proof. intros H%match_Bearer_pattern. by destruct H. Qed.

Lemma no_credential_is_denied_everywhere_witness :
  handler default_config (Some "production") sample_store sample_verify
    (sample_event (Some "Basic YWxpY2U6c2VjcmV0")) sample_instants
    initial_world
  = (Return getDenyAllPolicy, initial_world)
  /\ handler default_config (Some "production") sample_store sample_verify
       (sample_event None) sample_instants initial_world
     = (Return getDenyAllPolicy, initial_world).
Proof.
  split.
  - apply (no_credential_is_denied_everywhere default_config
             (Some "production") sample_store sample_verify).
    right. exists "Basic YWxpY2U6c2VjcmV0". split; [reflexivity|].
    exact no_Bearer_in_Basic.
  - apply (no_credential_is_denied_everywhere default_config
             (Some "production") sample_store sample_verify).
    left. reflexivity.
Defined.

(** An hour after it was issued, the sample token has expired. *)
Lemma validation_order_witness :
  (validateToken default_config sample_store sample_verify
     (tokenValidator default_config (Some "production")) "alice" None
     {| dateNow := 1700003600000; verifyClock := 1700003600000;
        isoNow := "2023-11-14T23:13:20.000Z" |}
     initial_world).1
  = Return (Invalid "Token expired").
Proof.
  refine (proj1 (validation_order default_config (Some "production")
            sample_store sample_verify "alice" None
            {| dateNow := 1700003600000; verifyClock := 1700003600000;
               isoNow := "2023-11-14T23:13:20.000Z" |}
            initial_world (world_after_fetch 1700003600000) "s3cret" _)
          "jwt expired" _); reflexivity.
Defined.

Lemma store_failure_is_denied_witness :
  handler default_config (Some "production") failing_store sample_verify
    (sample_event (Some "Bearer alice")) sample_instants initial_world
  = (Return
       {| principalId := JStr "anonymous";
          policyDocument :=
            {| Version := "2012-10-17";
               Statement :=
                 [ {| Action := "execute-api:Invoke";
                      Effect := Deny;
                      Resource := methodArn (sample_event (Some "Bearer alice")) |} ] |};
          context := None |},
     {| secretsCache := ∅; storeCalls := ["magento/jwt/secret"] |}).
Proof.
  refine (proj2 (proj2 (store_failure_is_denied default_config
            (Some "production") failing_store sample_verify
            "magento/jwt/secret" 1700000100000 initial_world _ _ _)
          eq_refl "alice" None sample_instants eq_refl)
          (sample_event (Some "Bearer alice")) _ _).
  - reflexivity.
  - intros c Hc. discriminate Hc.
  - exact I.
  - reflexivity.
  - discriminate.
Defined.

Lemma world_after_fetch_reachable (now : Z) :
  reachable default_config (Some "production") sample_store
    (world_after_fetch now).
Proof.
  change (reachable default_config (Some "production") sample_store
            (getSecret default_config sample_store
               (new_SecretsManagerService default_config (Some "production"))
               "magento/jwt/secret" now initial_world).2).
  apply reachable_getSecret, reachable_initial.
Qed.

(** The secret fetched at 22:15:00 is served from the cache one millisecond
    before it is five minutes old, and a second validation of the same token
    at that time gives the first outcome again, with one store call in all. *)
Lemma fresh_cache_entry_is_served_witness :
  getSecret default_config sample_store
    (new_SecretsManagerService default_config (Some "production"))
    "magento/jwt/secret" 1700000399999 (world_after_fetch 1700000100000)
  = (Return "s3cret", world_after_fetch 1700000100000)
  /\ validateToken default_config sample_store sample_verify
       (tokenValidator default_config (Some "production")) "alice" None
       {| dateNow := 1700000399999; verifyClock := 1700000399999;
          isoNow := "2023-11-14T22:19:59.999Z" |}
       (world_after_fetch 1700000100000)
     = (Return (Valid (JStr "alice") (JArr [JStr "admin"; JStr "editor"])
                  (JArr [JStr "read"; JStr "write"])),
        world_after_fetch 1700000100000)
  /\ length (storeCalls (world_after_fetch 1700000100000)) <= 1.
Proof.
  split.
  - refine (proj1 (fresh_cache_entry_is_served default_config
              (Some "production") sample_store sample_verify
              (world_after_fetch 1700000100000)
              (world_after_fetch_reachable 1700000100000))
            "magento/jwt/secret"
            {| value := "s3cret"; timestamp := 1700000100000%Z |}
            1700000399999%Z _ _); reflexivity.
  - refine (proj2 (fresh_cache_entry_is_served default_config
              (Some "production") sample_store sample_verify
              initial_world (reachable_initial _ _ _))
            "alice" None sample_instants
            {| dateNow := 1700000399999; verifyClock := 1700000399999;
               isoNow := "2023-11-14T22:19:59.999Z" |}
            (Valid (JStr "alice") (JArr [JStr "admin"; JStr "editor"])
               (JArr [JStr "read"; JStr "write"]))
            (world_after_fetch 1700000100000) _ _ _ _).
    + reflexivity.
    + reflexivity.
    + intros c Hc. injection Hc as <-. reflexivity.
    + intros secret. unfold sample_verify.
      destruct (negb (String.eqb secret "s3cret")); reflexivity.
Defined.

(** The token bound to 1.2.3.4 is refused when the origin is 5.6.7.8 and
    accepted when no origin is given. *)
Lemma origin_binding_witness :
  validateToken default_config sample_store sample_verify
    (tokenValidator default_config (Some "production")) "bound"
    (Some "5.6.7.8") sample_instants initial_world
  = (Return (Invalid "IP address mismatch"), world_after_fetch 1700000100000)
  /\ validateToken default_config sample_store sample_verify
       (tokenValidator default_config (Some "production")) "bound"
       None sample_instants initial_world
     = (Return (Valid (JStr "bob") (JArr [JStr "customer"])
                  (JArr [JStr "read"; JStr "write"])),
        world_after_fetch 1700000100000).
Proof.
  split.
  - refine (proj1 (origin_binding default_config (Some "production")
              sample_store sample_verify "bound" (Some "5.6.7.8")
              sample_instants initial_world (world_after_fetch 1700000100000)
              "s3cret"
              (("ip", JStr "1.2.3.4")
               :: sample_claims (JStr "bob") [JStr "customer"])
              (JStr "customer") (JStr "read") [] [JStr "write"] _ _ _ _ _)
            "5.6.7.8" _ _ _ _); try reflexivity; discriminate.
  - refine (proj2 (origin_binding default_config (Some "production")
              sample_store sample_verify "bound" None
              sample_instants initial_world (world_after_fetch 1700000100000)
              "s3cret"
              (("ip", JStr "1.2.3.4")
               :: sample_claims (JStr "bob") [JStr "customer"])
              (JStr "customer") (JStr "read") [] [JStr "write"] _ _ _ _ _)
            _); try reflexivity.
    right. reflexivity.
Defined.

(** Through the handler, the token bound to 1.2.3.4 is validated without an
    origin. *)
Lemma handler_skips_origin_binding_witness :
  handler_try default_config (Some "production") sample_store sample_verify
    (sample_event (Some "Bearer bound")) sample_instants initial_world
  = (decision_for (sample_event (Some "Bearer bound")) sample_instants
       (validateToken default_config sample_store sample_verify
          (tokenValidator default_config (Some "production")) "bound" None
          sample_instants initial_world).1,
     (validateToken default_config sample_store sample_verify
        (tokenValidator default_config (Some "production")) "bound" None
        sample_instants initial_world).2)
  /\ exists r,
       (validateToken default_config sample_store sample_verify
          (tokenValidator default_config (Some "production")) "bound" None
          sample_instants initial_world).1 = Return r
       /\ error r <> Some "IP address mismatch".
Proof.
  apply (handler_skips_origin_binding default_config (Some "production")
           sample_store sample_verify (sample_event (Some "Bearer bound"))
           sample_instants initial_world "bound").
  - reflexivity.
  - discriminate.
Defined.

(** A token whose only role is the number 42 is valid. *)
Lemma non_string_elements_are_accepted_witness :
  validateToken default_config sample_store sample_verify
    (tokenValidator default_config (Some "production")) "numeric" None
    sample_instants initial_world
  = (Return (Valid (JStr "carol") (JArr [JNum 42])
               (JArr [JStr "read"; JStr "write"])),
     world_after_fetch 1700000100000).
Proof.
  refine (non_string_elements_are_accepted default_config (Some "production")
            sample_store sample_verify "numeric" None sample_instants
            initial_world (world_after_fetch 1700000100000) "s3cret"
            (sample_claims (JStr "carol") [JNum 42]) [JNum 42]
            [JStr "read"; JStr "write"] _ _ _ _ _ _ _ _ _);
    try reflexivity; try discriminate.
  left. apply Exists_cons_hd. reflexivity.
Defined.

(** The decision given for an event without header is not of the shape that
    names the action ["invoke"]: its action is ["execute-api:Invoke"]. And the
    decision for a token whose subject is the number 1001 has that number,
    not a string, in its context. *)
Lemma invoke_shape_counterexample :
  ((handler default_config (Some "production") sample_store sample_verify
      (sample_event None) sample_instants initial_world).1
   = Return getDenyAllPolicy
   /\ ~ invoke_shape getDenyAllPolicy)
  /\ exists d,
       (handler default_config (Some "production") sample_store sample_verify
          (sample_event (Some "Bearer erin")) sample_instants initial_world).1
       = Return d
       /\ context d
          = Some [ ("userId", JNum 1001);
                   ("roles", JStr "customer");
                   ("scopes", JStr "read,write");
                   ("userIdHeader", JNum 1001);
                   ("authenticated", JStr "true");
                   ("timestamp", JStr "2023-11-14T22:15:00.000Z") ]
       /\ ~ string_context d.
Proof.
  split.
  - split; [reflexivity|]. intros (e & resource & H). discriminate H.
  - eexists. split; [reflexivity|]. split; [reflexivity|].
    intros H. specialize (H _ eq_refl).
    apply Forall_cons_1 in H as [H _]. discriminate H.
Qed.

(** ** The further properties on the concrete process *)

Lemma blank_token_is_denied_everywhere_witness :
  handler default_config (Some "production") sample_store sample_verify
    (sample_event (Some "bearer   ")) sample_instants initial_world
  = (Return getDenyAllPolicy, initial_world).
Proof.
  apply (blank_token_is_denied_everywhere default_config (Some "production")
           sample_store sample_verify (sample_event (Some "bearer   "))
           sample_instants initial_world "bearer" "   ");
    try reflexivity.
  discriminate.
Defined.

(** The local secret is returned though the store is down. *)
Lemma local_secret_stands_in_witness :
  getSecret local_config failing_store
    (new_SecretsManagerService local_config (Some "development"))
    "magento/jwt/secret" 1700000100000 initial_world
  = (Return "s3cret", initial_world).
Proof.
  apply (local_secret_stands_in local_config (Some "development")
           failing_store "s3cret" 1700000100000%Z initial_world).
  - discriminate.
  - reflexivity.
  - discriminate.
Defined.

Lemma secret_comes_from_cache_or_store_witness :
  (exists c, secretsCache initial_world !! "magento/jwt/secret" = Some c
             /\ value c = "s3cret"
             /\ (1700000100000 - timestamp c < cacheExpiryMs local_config)%Z
             /\ world_after_fetch 1700000100000 = initial_world)
  \/ (sample_store (length (storeCalls initial_world)) "magento/jwt/secret"
        = StoreResponse (Some "s3cret")
      /\ "s3cret" <> ""
      /\ world_after_fetch 1700000100000
         = {| secretsCache :=
                <["magento/jwt/secret" :=
                    {| value := "s3cret"; timestamp := 1700000100000 |}]>
                  (secretsCache initial_world);
              storeCalls :=
                (storeCalls initial_world ++ ["magento/jwt/secret"])%list |}).
Proof.
  apply (secret_comes_from_cache_or_store local_config (Some "production")
           sample_store "magento/jwt/secret" 1700000100000%Z initial_world
           (world_after_fetch 1700000100000) "s3cret").
  - left. reflexivity.
  - reflexivity.
Defined.

Lemma fetched_secret_is_cached_witness :
  getSecret default_config sample_store
    (new_SecretsManagerService default_config (Some "production"))
    "magento/jwt/secret" 1700000100000 initial_world
  = (Return "s3cret", world_after_fetch 1700000100000)
  /\ forall later : Z,
       (later - 1700000100000 < 300000)%Z ->
       getSecret default_config sample_store
         (new_SecretsManagerService default_config (Some "production"))
         "magento/jwt/secret" later (world_after_fetch 1700000100000)
       = (Return "s3cret", world_after_fetch 1700000100000).
Proof.
  apply (fetched_secret_is_cached default_config sample_store
           (new_SecretsManagerService default_config (Some "production"))
           "magento/jwt/secret" 1700000100000%Z initial_world "s3cret").
  - reflexivity.
  - intros c Hc. discriminate Hc.
  - reflexivity.
  - discriminate.
Defined.

Lemma secrets_are_never_empty_witness :
  (forall n c,
     secretsCache (world_after_fetch 1700000100000) !! n = Some c ->
     value c <> "")
  /\ forall (secretName : string) (now : Z) (s : string) (w1 : world),
       getSecret default_config sample_store
         (new_SecretsManagerService default_config (Some "production"))
         secretName now (world_after_fetch 1700000100000) = (Return s, w1) ->
       s <> "".
Proof.
  apply (secrets_are_never_empty default_config (Some "production")
           sample_store (world_after_fetch 1700000100000)).
  apply world_after_fetch_reachable.
Defined.

Lemma cached_values_come_from_the_store_witness :
  exists i : nat,
    storeCalls (world_after_fetch 1700000100000) !! i
    = Some "magento/jwt/secret"
    /\ sample_store i "magento/jwt/secret" = StoreResponse (Some "s3cret").
Proof.
  apply (cached_values_come_from_the_store default_config
           (Some "production") sample_store
           (world_after_fetch 1700000100000)
           (world_after_fetch_reachable 1700000100000)
           "magento/jwt/secret"
           {| value := "s3cret"; timestamp := 1700000100000 |}).
  reflexivity.
Defined.

Lemma allow_requires_a_verified_token_witness :
  exists (token secret : string) (decoded : list (string * jsval))
         (x y : jsval) (rs ss : list jsval),
    extractToken (Some "Bearer alice") = Some token
    /\ token <> ""
    /\ (getJwtSecret default_config sample_store
          (secretsManager (tokenValidator default_config (Some "production")))
          (dateNow sample_instants) initial_world).1
       = Return secret
    /\ sample_verify token secret (verify_options default_config)
         (verifyClock sample_instants) = Return decoded
    /\ truthy (get_prop decoded "sub") = true
    /\ get_prop decoded "roles" = JArr (x :: rs)
    /\ get_prop decoded "scopes" = JArr (y :: ss)
    /\ JStr "alice" = get_prop decoded "sub"
    /\ [ {| Action := "execute-api:Invoke";
            Effect := Allow;
            Resource := methodArn (sample_event (Some "Bearer alice")) |} ]
       = [ {| Action := "execute-api:Invoke";
              Effect := Allow;
              Resource := methodArn (sample_event (Some "Bearer alice")) |} ].
Proof.
  apply (allow_requires_a_verified_token default_config (Some "production")
           sample_store sample_verify (sample_event (Some "Bearer alice"))
           sample_instants initial_world
           (generatePolicy (JStr "alice") Allow
              (methodArn (sample_event (Some "Bearer alice")))
              (Some [ ("userId", JStr "alice");
                      ("roles", JStr "admin,editor");
                      ("scopes", JStr "read,write");
                      ("userIdHeader", JStr "alice");
                      ("authenticated", JStr "true");
                      ("timestamp", JStr "2023-11-14T22:15:00.000Z") ])));
    reflexivity.
Defined.

(** The token whose only role is the number 42 is allowed, with the text
    "42" for its roles; so is the token whose roles are a fraction, a number
    printed with an exponent, and an object that has an own [toString] only
    inside another object. *)
Lemma valid_outcome_is_allowed_when_convertible_witness :
  (exists roles_text scopes_text,
     Array_join [JNum 42] = Return roles_text
     /\ Array_join [JStr "read"; JStr "write"] = Return scopes_text
     /\ handler default_config (Some "production") sample_store sample_verify
          (sample_event (Some "Bearer numeric")) sample_instants initial_world
        = (Return (generatePolicy (JStr "carol") Allow
                     (methodArn (sample_event (Some "Bearer numeric")))
                     (Some [ ("userId", JStr "carol");
                             ("roles", JStr roles_text);
                             ("scopes", JStr scopes_text);
                             ("userIdHeader", JStr "carol");
                             ("authenticated", JStr "true");
                             ("timestamp", JStr (isoNow sample_instants)) ])),
           world_after_fetch 1700000100000))
  /\ exists roles_text scopes_text,
       Array_join [JNumText "1.5"; JNumText "1e+21";
                   JObj [("name", JObj [("toString", JNum 1)])]]
       = Return roles_text
       /\ Array_join [JStr "read"; JStr "write"] = Return scopes_text
       /\ handler default_config (Some "production") sample_store
            sample_verify (sample_event (Some "Bearer fraction"))
            sample_instants initial_world
          = (Return (generatePolicy (JStr "frank") Allow
                       (methodArn (sample_event (Some "Bearer fraction")))
                       (Some [ ("userId", JStr "frank");
                               ("roles", JStr roles_text);
                               ("scopes", JStr scopes_text);
                               ("userIdHeader", JStr "frank");
                               ("authenticated", JStr "true");
                               ("timestamp",
                                JStr (isoNow sample_instants)) ])),
             world_after_fetch 1700000100000).
Proof.
  split.
  - refine (proj1 (valid_outcome_is_allowed_when_convertible default_config
              (Some "production") sample_store sample_verify
              (sample_event (Some "Bearer numeric")) sample_instants
              initial_world (world_after_fetch 1700000100000) "numeric"
              (JStr "carol") [JNum 42] [JStr "read"; JStr "write"] _ _ _)
            _ _);
      try reflexivity.
    discriminate.
  - refine (proj1 (valid_outcome_is_allowed_when_convertible default_config
              (Some "production") sample_store sample_verify
              (sample_event (Some "Bearer fraction")) sample_instants
              initial_world (world_after_fetch 1700000100000) "fraction"
              (JStr "frank")
              [JNumText "1.5"; JNumText "1e+21";
               JObj [("name", JObj [("toString", JNum 1)])]]
              [JStr "read"; JStr "write"] _ _ _)
            _ _);
      try reflexivity.
    discriminate.
Defined.

Lemma handler_try_throws_only_in_join_witness :
  TypeError "Cannot convert object to primitive value"
  = TypeError "Cannot convert object to primitive value"
  /\ exists (token : string) (sub : jsval) (rs ss : list jsval),
       extractToken (authorizationToken (sample_event (Some "Bearer shadowed")))
       = Some token
       /\ (validateToken default_config sample_store sample_verify
             (tokenValidator default_config (Some "production")) token None
             sample_instants initial_world).1
          = Return (Valid sub (JArr rs) (JArr ss))
       /\ convertible (JArr rs) && convertible (JArr ss) = false.
Proof.
  apply (handler_try_throws_only_in_join default_config (Some "production")
           sample_store sample_verify
           (sample_event (Some "Bearer shadowed")) sample_instants
           initial_world).
  reflexivity.
Defined.

(** A token the sample issuer never made is denied on the method. *)
Lemma invalid_token_is_denied_on_the_method_witness :
  handler default_config (Some "production") sample_store sample_verify
    (sample_event (Some "Bearer forged")) sample_instants initial_world
  = (Return {| principalId := JStr "anonymous";
               policyDocument :=
                 {| Version := "2012-10-17";
                    Statement :=
                      [ {| Action := "execute-api:Invoke";
                           Effect := Deny;
                           Resource :=
                             methodArn (sample_event (Some "Bearer forged")) |} ] |};
               context := None |},
     world_after_fetch 1700000100000).
Proof.
  apply (invalid_token_is_denied_on_the_method default_config
           (Some "production") sample_store sample_verify
           (sample_event (Some "Bearer forged")) sample_instants
           initial_world "forged"
           (Invalid "Invalid token: jwt malformed")).
  - reflexivity.
  - discriminate.
  - reflexivity.
  - reflexivity.
Defined.

Lemma deny_is_anonymous_witness :
  principalId getDenyAllPolicy = JStr "anonymous"
  /\ context getDenyAllPolicy = None
  /\ exists resource,
       Statement (policyDocument getDenyAllPolicy)
       = [ {| Action := "execute-api:Invoke";
              Effect := Deny;
              Resource := resource |} ]
       /\ (resource = "*" \/ resource = methodArn (sample_event None)).
Proof.
  apply (deny_is_anonymous default_config (Some "production") sample_store
           sample_verify (sample_event None) sample_instants initial_world
           getDenyAllPolicy); reflexivity.
Defined.

(** In development, with the local secret, the token is verified though the
    store is down, and nothing is stored. *)
Lemma local_mode_needs_no_store_witness :
  validateToken local_config failing_store sample_verify
    (tokenValidator local_config (Some "development")) "alice" None
    sample_instants initial_world
  = (Return (Valid (JStr "alice") (JArr [JStr "admin"; JStr "editor"])
               (JArr [JStr "read"; JStr "write"])),
     initial_world)
  /\ forall event : APIGatewayTokenAuthorizerEvent,
       (handler local_config (Some "development") failing_store sample_verify
          event sample_instants initial_world).2 = initial_world.
Proof.
  apply (local_mode_needs_no_store local_config (Some "development")
           failing_store sample_verify "s3cret" "alice" None sample_instants
           initial_world).
  - discriminate.
  - reflexivity.
  - discriminate.
Defined.

Lemma joined_names_determine_the_names_witness :
  ["admin"; "editor"] = ["admin"; "editor"].
Proof.
  apply (joined_names_determine_the_names ["admin"; "editor"]
           ["admin"; "editor"]).
  - discriminate.
  - discriminate.
  - repeat constructor.
  - repeat constructor.
  - reflexivity.
Defined.

Lemma expiry_ignores_trailing_text_witness :
  config_of_env sample_env_with_unit
  = Some {| jwt_secretName := "magento/jwt/secret";
            jwt_issuer := "magento";
            jwt_audience := "shop";
            jwt_algorithm := "HS256";
            jwt_localSecret := None;
            cacheExpiryMs := 5 |}.
Proof.
  apply (expiry_ignores_trailing_text sample_env sample_env_with_unit
           "5" "min").
  - reflexivity.
  - discriminate.
  - reflexivity.
  - reflexivity.
  - intros k Hk. unfold sample_env_with_unit.
    destruct (String.eqb_spec k "SECRETS_CACHE_EXPIRY_MS"); [done|reflexivity].
  - reflexivity.
Defined.

Lemma mismatch_only_after_all_checks_witness :
  exists (secret origin : string) (decoded : list (string * jsval))
         (x y : jsval) (rs ss : list jsval),
    (getJwtSecret default_config sample_store
       (secretsManager (tokenValidator default_config (Some "production")))
       (dateNow sample_instants) initial_world).1
      = Return secret
    /\ sample_verify "bound" secret (verify_options default_config)
         (verifyClock sample_instants) = Return decoded
    /\ truthy (get_prop decoded "sub") = true
    /\ get_prop decoded "roles" = JArr (x :: rs)
    /\ get_prop decoded "scopes" = JArr (y :: ss)
    /\ truthy (get_prop decoded "ip") = true
    /\ Some "5.6.7.8" = Some origin
    /\ origin <> ""
    /\ get_prop decoded "ip" <> JStr origin.
Proof.
  apply (mismatch_only_after_all_checks default_config (Some "production")
           sample_store sample_verify "bound" (Some "5.6.7.8")
           sample_instants initial_world).
  reflexivity.
Defined.
